(** * voice-note-taking: the voice-to-notes command line flow and the HTTP note server

    A shallow embedding of the two programs of the repository:

    - the command line flow (microphone -> streaming transcription -> note
      generation, with the WAV writer), module [Cli], helpers in [Js] and [Wav];
    - [server.js], the HTTP collaborator, module [Server].

    Conventions of the embedding.

    - Every event handler is one function from the session (the module-level
      variables of the script) to the new session and the list of effects it
      performed, in program order.  Handlers run to completion, one after the
      other: the awaited chat completion is an oracle of the [Runtime] record,
      and the interleaving of a suspended handler with the handlers that run
      while it waits is not represented.
    - A thrown exception is [None]; the [try]/[catch] of the source is the
      [match] on it.
    - Calls into the microphone, the socket and the file system ([saveDB]
      included) are effects and are taken to return normally; the chat
      completion may fail.
    - File names carry a wall-clock stamp and are left out of the write effects. *)

From Stdlib Require Import ZArith List String Ascii Bool Lia.
From coqutil Require Import Byte Word.LittleEndianList.
From stdpp Require Import gmap strings.
Import ListNotations.

Set Warnings "-register-all".

Local Open Scope Z_scope.

(** Destructs a list of known length into its elements. *)
Ltac sized l n :=
  let rec go n :=
    lazymatch n with
    | O => destruct l as [|? ?]; [|discriminate]
    | S ?m => destruct l as [|? l]; [discriminate|]; go m
    end in go n.

(** ** JavaScript values as the handlers see them *)

Module Js.

(** The result of [JSON.parse].  Numbers are only tested for being zero and for
    identity by the handlers; they are kept as integers. *)
Inductive json : Type :=
| JNull
| JBool (b : bool)
| JNum (n : Z)
| JStr (s : string)
| JArr (items : list json)
| JObj (fields : list (string * json)).

(** A JavaScript value read from parsed JSON: [None] is [undefined]. *)
Definition value : Type := option json.

(** ToBoolean, as used by [!x], [x || y] and [if (x)]. *)
Definition truthy (v : value) : bool :=
  match v with
  | None => false
  | Some JNull => false
  | Some (JBool b) => b
  | Some (JNum n) => negb (n =? 0)
  | Some (JStr s) => negb (String.eqb s "")
  | Some (JArr _) => true
  | Some (JObj _) => true
  end.

(** Own property of an object literal; [JSON.parse] keeps the last of several
    equal keys. *)
Fixpoint own (fields : list (string * json)) (k : string) : value :=
  match fields with
  | [] => None
  | (k', v) :: rest =>
      match own rest k with
      | Some w => Some w
      | None => if String.eqb k' k then Some v else None
      end
  end.

(** [data.k] for the property names the handlers read (none of them lives on a
    prototype): a TypeError on [null], [undefined] on the other primitives and
    on arrays. *)
Definition prop (data : json) (k : string) : option value :=
  match data with
  | JNull => None
  | JObj fields => Some (own fields k)
  | _ => Some None
  end.

(** [data.k] once an earlier access has shown that [data] is not [null]. *)
Definition get (data : json) (k : string) : value :=
  match prop data k with
  | Some v => v
  | None => None
  end.

(** [a === b] where [b] comes from a freshly parsed body: two objects or two
    arrays are never the same object. *)
Definition strict_eq (a b : json) : bool :=
  match a, b with
  | JNull, JNull => true
  | JBool x, JBool y => Bool.eqb x y
  | JNum x, JNum y => x =? y
  | JStr x, JStr y => String.eqb x y
  | _, _ => false
  end.

(** [v === "literal"] for a value that may be [undefined]. *)
Definition is_string (v : value) (lit : string) : bool :=
  match v with
  | Some (JStr s) => String.eqb s lit
  | _ => false
  end.

(** White space and line terminators removed by [String.prototype.trim], among
    the code units below 256. *)
Definition is_space (c : ascii) : bool :=
  let n := nat_of_ascii c in
  (Nat.eqb n 9 || Nat.eqb n 10 || Nat.eqb n 11 || Nat.eqb n 12 || Nat.eqb n 13
   || Nat.eqb n 32 || Nat.eqb n 160)%bool.

(** [!s.trim()]: the string holds white space only. *)
Fixpoint blank (s : string) : bool :=
  match s with
  | EmptyString => true
  | String c rest => is_space c && blank rest
  end.

(** [s.replace(pat, '')] with a string pattern: the first occurrence of [pat]
    is removed. *)
Fixpoint remove_first (pat s : string) : string :=
  if String.prefix pat s
  then String.substring (String.length pat) (String.length s - String.length pat) s
  else match s with
       | EmptyString => EmptyString
       | String c rest => String c (remove_first pat rest)
       end.

End Js.

(** ** The 44-byte WAV header *)

Module Wav.

Definition buffer : Type := list byte.

(** [Buffer.alloc(n)] *)
Definition alloc (n : nat) : buffer := repeat Byte.x00 n.

Definition splice (buf : buffer) (offset : nat) (bytes : list byte) : buffer :=
  firstn offset buf ++ bytes ++ skipn (offset + length bytes) buf.

(** [buffer.write(text, offset)]: the text that fits is written. *)
Definition write (buf : buffer) (text : string) (offset : nat) : buffer :=
  firstn (length buf) (splice buf offset (list_byte_of_string text)).

(** [buffer.writeUInt32LE(value, offset)]: a RangeError outside
    [0, 2^32 - 1] or when the four bytes do not fit. *)
Definition writeUInt32LE (buf : buffer) (v : Z) (offset : nat) : option buffer :=
  if (0 <=? v) && (v <=? 4294967295) && (offset + 4 <=? length buf)%nat
  then Some (splice buf offset (le_split 4 v))
  else None.

(** [buffer.writeUInt16LE(value, offset)]: a RangeError outside [0, 65535]. *)
Definition writeUInt16LE (buf : buffer) (v : Z) (offset : nat) : option buffer :=
  if (0 <=? v) && (v <=? 65535) && (offset + 2 <=? length buf)%nat
  then Some (splice buf offset (le_split 2 v))
  else None.

Notation "'try' x <- e ; k" :=
  (match e with Some x => k | None => None end)
  (at level 10, x name, e at level 100, k at level 200).

Definition createWavHeader (sampleRate channels dataLength : Z) : option buffer :=
  let buffer := alloc 44 in
  (* RIFF header *)
  let buffer := write buffer "RIFF" 0 in
  try buffer <- writeUInt32LE buffer (36 + dataLength) 4;
  let buffer := write buffer "WAVE" 8 in
  (* fmt chunk *)
  let buffer := write buffer "fmt " 12 in
  try buffer <- writeUInt32LE buffer 16 16;
  try buffer <- writeUInt16LE buffer 1 20;
  try buffer <- writeUInt16LE buffer channels 22;
  try buffer <- writeUInt32LE buffer sampleRate 24;
  try buffer <- writeUInt32LE buffer (sampleRate * channels * 2) 28;
  try buffer <- writeUInt16LE buffer (channels * 2) 32;
  try buffer <- writeUInt16LE buffer 16 34;
  (* data chunk *)
  let buffer := write buffer "data" 36 in
  try buffer <- writeUInt32LE buffer dataLength 40;
  Some buffer.

(** Reading side, used to state what the header says: the unsigned
    little-endian field of [len] bytes at [offset]. *)
Definition field (file : list byte) (offset len : nat) : Z :=
  le_combine (firstn len (skipn offset file)).

Definition tag (file : list byte) (offset : nat) : string :=
  string_of_list_byte (firstn 4 (skipn offset file)).

(** The canonical header written out: four tags and nine little-endian
    fields, of which six depend on the arguments. *)
Definition layout (chunkSize channels sampleRate byteRate blockAlign dataSize
                   : list byte) : list byte :=
  list_byte_of_string "RIFF" ++ chunkSize ++ list_byte_of_string "WAVE"
  ++ list_byte_of_string "fmt " ++ le_split 4 16 ++ le_split 2 1 ++ channels
  ++ sampleRate ++ byteRate ++ blockAlign ++ le_split 2 16
  ++ list_byte_of_string "data" ++ dataSize.

(** The arguments for which every field of the header fits its width. *)
Definition fits (sampleRate channels dataLength : Z) : bool :=
  (0 <=? dataLength) && (36 + dataLength <=? 4294967295)
  && (0 <=? sampleRate) && (sampleRate <=? 4294967295)
  && (0 <=? channels) && (channels * 2 <=? 65535)
  && (sampleRate * channels * 2 <=? 4294967295).

(** A reader of the canonical layout: checks the four chunk tags and returns
    the [Subchunk2Size] bytes that follow the header. *)
Definition decodeWav (file : list byte) : option (list byte) :=
  let payload := skipn 44 file in
  if (44 <=? length file)%nat
     && String.eqb (tag file 0) "RIFF"
     && String.eqb (tag file 8) "WAVE"
     && String.eqb (tag file 12) "fmt "
     && String.eqb (tag file 36) "data"
     && (field file 40 4 =? Z.of_nat (length payload))
  then Some payload
  else None.

End Wav.


(** ** The command line flow *)

Module Cli.
Import Js.

(** What the script obtains from the JavaScript runtime and from the chat
    completion service. *)
Record Runtime := {
  (** ToString of a parsed value that is not a string *)
  toString : json -> string;
  (** [new Date(t * 1000).toISOString()]; [None] is the RangeError of an
      invalid date *)
  toISOString : value -> option string;
  (** [openai.chat.completions.create] followed by
      [response.choices[0].message.content]; [None] when the request or the
      access throws *)
  chatCompletion : string -> option string
}.

(** [`${v}`] and [v + " "] *)
Definition text (rt : Runtime) (v : json) : string :=
  match v with
  | JStr s => s
  | _ => toString rt v
  end.

Definition ASSEMBLYAI_PLACEHOLDER : string := "YOUR_ASSEMBLYAI_API_KEY".
Definition OPENAI_PLACEHOLDER : string := "YOUR_OPENAI_API_KEY".
Definition SAMPLE_RATE : Z := 16000.
Definition CHANNELS : Z := 1.

Inductive readyState := CONNECTING | OPEN | CLOSING | CLOSED.

#[global] Instance readyState_eq_dec : EqDecision readyState.
Proof. solve_decision. Defined.

(** The module-level variables.  [micInstance] is [true] when the variable
    holds an instance, [ws] is [None] when the variable is [null] and otherwise
    the [readyState] of the socket it refers to. *)
Record Session := mkSession {
  micInstance : bool;
  ws : option readyState;
  stopRequested : bool;
  recordedFrames : list (list byte);
  fullTranscript : string
}.

Definition initial : Session := mkSession false None false [] "".

Definition set_micInstance (b : bool) (s : Session) : Session :=
  mkSession b (ws s) (stopRequested s) (recordedFrames s) (fullTranscript s).
Definition set_ws (w : option readyState) (s : Session) : Session :=
  mkSession (micInstance s) w (stopRequested s) (recordedFrames s) (fullTranscript s).
Definition set_stopRequested (b : bool) (s : Session) : Session :=
  mkSession (micInstance s) (ws s) b (recordedFrames s) (fullTranscript s).
Definition set_recordedFrames (f : list (list byte)) (s : Session) : Session :=
  mkSession (micInstance s) (ws s) (stopRequested s) f (fullTranscript s).
Definition set_fullTranscript (t : string) (s : Session) : Session :=
  mkSession (micInstance s) (ws s) (stopRequested s) (recordedFrames s) t.

(** Console lines, one constructor per call site. *)
Inductive line :=
| Starting | AudioWillBeSaved | NotesWillBeGenerated
| MissingAssemblyKey | MissingOpenAIKey
| SocketOpened | ConnectedTo
| SessionBegan (id : value) (expiresAt : string)
| ClearLine | FinalTurn (transcript : string) | PartialTurn (transcript : string)
| SessionTerminated (audioDuration sessionDuration : value)
| MessageError | MessageData
| SocketFailed | SocketDisconnected
| NoAudio | AudioSaved | Duration (dataLength : Z) | WavError
| NoTranscript | Generating | NotesHeader | Separator
| NotesText (notes : string) | NotesSaved | GenerationError
| MicOpened | SpeakNow | MicStreamError | MicOpenError
| SendingTerminate | CleanupComplete
| Launch | CtrlC | TerminationSignal | UncaughtException.

Inductive effect :=
| Out (l : line)                      (* console.log, process.stdout.write *)
| Err (l : line)                      (* console.error *)
| Connect (authorization : string)    (* new WebSocket(API_ENDPOINT, ...) *)
| InstallHandlers                     (* setupTerminationHandlers() *)
| ChatRequest (transcript : string)   (* openai.chat.completions.create *)
| WriteNotes (notes : string)         (* fs.writeFileSync(notesFilename, notes) *)
| WriteWav (file : list byte)         (* fs.writeFileSync(filename, wavFile) *)
| MicStart                            (* micInstance.start() *)
| MicStop                             (* micInstance.stop() *)
| SendAudio (frame : list byte)       (* ws.send(data) *)
| SendTerminate                       (* ws.send(JSON.stringify({type: Terminate})) *)
| CloseSocket                         (* ws.close() *)
| ExitAfterGrace (status : Z).        (* setTimeout(() => process.exit(status), 2000) *)

Definition saveWavFile (s : Session) : list effect :=
  match recordedFrames s with
  | [] => [Out NoAudio]
  | _ :: _ =>
      (* Combine all recorded frames *)
      let audioData := concat (recordedFrames s) in
      let dataLength := Z.of_nat (length audioData) in
      match Wav.createWavHeader SAMPLE_RATE CHANNELS dataLength with
      | Some wavHeader =>
          let wavFile := wavHeader ++ audioData in
          [WriteWav wavFile; Out AudioSaved; Out (Duration dataLength)]
      | None => [Err WavError]
      end
  end.

Definition generateNotesFromTranscript (rt : Runtime) (transcript : string)
  : list effect :=
  if blank transcript then [Out NoTranscript]
  else
    Out Generating :: ChatRequest transcript ::
    match chatCompletion rt transcript with
    | Some notes =>
        [WriteNotes notes; Out NotesHeader; Out Separator; Out (NotesText notes);
         Out Separator; Out NotesSaved]
    | None => [Err GenerationError]
    end.

(** [if (fullTranscript.trim()) await generateNotesFromTranscript(fullTranscript)] *)
Definition notesIfTranscript (rt : Runtime) (s : Session) : list effect :=
  if negb (blank (fullTranscript s))
  then generateNotesFromTranscript rt (fullTranscript s)
  else [].

Definition cleanup (rt : Runtime) (s : Session) : Session * list effect :=
  let s := set_stopRequested true s in
  (* Generate notes from transcript before cleanup *)
  let e1 := notesIfTranscript rt s in
  (* Save recorded audio to WAV file *)
  let e2 := saveWavFile s in
  (* Stop microphone if it's running *)
  let '(s, e3) :=
    if micInstance s then (set_micInstance false s, [MicStop]) else (s, []) in
  (* Close WebSocket connection if it's open *)
  let '(s, e4) :=
    match ws s with
    | Some OPEN => (set_ws None s, [Out SendingTerminate; SendTerminate; CloseSocket])
    | Some CONNECTING => (set_ws None s, [CloseSocket])
    | _ => (s, [])
    end in
  (s, e1 ++ e2 ++ e3 ++ e4 ++ [Out CleanupComplete]).

(** The effects of the last two steps of [cleanup], and its last line. *)
Definition closing (s : Session) : list effect :=
  (if micInstance s then [MicStop] else [])
  ++ match ws s with
     | Some OPEN => [Out SendingTerminate; SendTerminate; CloseSocket]
     | Some CONNECTING => [CloseSocket]
     | _ => []
     end
  ++ [Out CleanupComplete].

(** Where opening the microphone throws, if it does: in [mic(...)], before
    [micInstance] is assigned, or afterwards, in [micInstance.start()]. *)
Inductive micFault := NoFault | CreateFails | StartFails.

Definition startMicrophone (rt : Runtime) (fault : micFault) (s : Session)
  : Session * list effect :=
  match fault with
  | NoFault =>
      (set_micInstance true s, [MicStart; Out MicOpened; Out SpeakNow])
  | CreateFails =>
      let '(s, e) := cleanup rt s in (s, Err MicOpenError :: e)
  | StartFails =>
      let '(s, e) := cleanup rt (set_micInstance true s) in
      (s, Err MicOpenError :: e)
  end.

(** [micInputStream.on("data", ...)] *)
Definition onMicData (frame : list byte) (s : Session) : Session * list effect :=
  match ws s with
  | Some OPEN =>
      if negb (stopRequested s)
      then (set_recordedFrames (recordedFrames s ++ [frame]) s, [SendAudio frame])
      else (s, [])
  | _ => (s, [])
  end.

(** The [catch] of the message handler. *)
Definition caught (s : Session) : Session * list effect :=
  (s, [Err MessageError; Err MessageData]).

(** [ws.on("message", ...)]; [message] is the result of [JSON.parse], [None]
    when it throws. *)
Definition onMessage (rt : Runtime) (message : option json) (s : Session)
  : Session * list effect :=
  match message with
  | None => caught s
  | Some data =>
      match prop data "type" with
      | None => caught s
      | Some msgType =>
          if is_string msgType "Begin" then
            match toISOString rt (get data "expires_at") with
            | Some expiresAt =>
                (s, [Out (SessionBegan (get data "id") expiresAt)])
            | None => caught s
            end
          else if is_string msgType "Turn" then
            let transcript :=
              if truthy (get data "transcript")
              then text rt (default JNull (get data "transcript"))
              else "" in
            let formatted := get data "turn_is_formatted" in
            if truthy formatted then
              (* Add to full transcript *)
              (set_fullTranscript (fullTranscript s +:+ transcript +:+ " ") s,
               [Out ClearLine; Out (FinalTurn transcript)])
            else
              (* Show partial transcript in real-time *)
              (s, [Out (PartialTurn transcript)])
          else if is_string msgType "Termination" then
            (s, Out (SessionTerminated
                       (get data "audio_duration_seconds")
                       (get data "session_duration_seconds"))
                :: notesIfTranscript rt s)
          else (s, [])
      end
  end.

(** [ws.on("open", ...)] *)
Definition onOpen (rt : Runtime) (fault : micFault) (s : Session)
  : Session * list effect :=
  let '(s, e) := startMicrophone rt fault s in
  (s, Out SocketOpened :: Out ConnectedTo :: e).

(** [ws.on("error", ...)] *)
Definition onError (rt : Runtime) (s : Session) : Session * list effect :=
  let '(s, e) := cleanup rt s in (s, Err SocketFailed :: e).

(** [ws.on("close", ...)] *)
Definition onClose (rt : Runtime) (s : Session) : Session * list effect :=
  (* Generate notes if we have a transcript *)
  let e1 := notesIfTranscript rt s in
  let '(s, e2) := cleanup rt s in
  (s, Out SocketDisconnected :: e1 ++ e2).

(** [micInputStream.on("error", ...)] *)
Definition onMicError (rt : Runtime) (s : Session) : Session * list effect :=
  let '(s, e) := cleanup rt s in (s, Err MicStreamError :: e).

(** The handlers of [setupTerminationHandlers]. *)
Definition onSIGINT (rt : Runtime) (s : Session) : Session * list effect :=
  let '(s, e) := cleanup rt s in (s, Out CtrlC :: e ++ [ExitAfterGrace 0]).

Definition onSIGTERM (rt : Runtime) (s : Session) : Session * list effect :=
  let '(s, e) := cleanup rt s in
  (s, Out TerminationSignal :: e ++ [ExitAfterGrace 0]).

Definition onUncaughtException (rt : Runtime) (s : Session)
  : Session * list effect :=
  let '(s, e) := cleanup rt s in
  (s, Err UncaughtException :: e ++ [ExitAfterGrace 1]).

(** [process.env.X || fallback] *)
Definition envOr (x : option string) (fallback : string) : string :=
  match x with
  | Some v => if String.eqb v "" then fallback else v
  | None => fallback
  end.

Definition run (ASSEMBLYAI_API_KEY OPENAI_API_KEY : option string) (s : Session)
  : Session * list effect :=
  let YOUR_ASSEMBLYAI_API_KEY := envOr ASSEMBLYAI_API_KEY ASSEMBLYAI_PLACEHOLDER in
  let apiKey := envOr OPENAI_API_KEY OPENAI_PLACEHOLDER in
  let banner := [Out Starting; Out AudioWillBeSaved; Out NotesWillBeGenerated] in
  (* Check API keys *)
  if String.eqb YOUR_ASSEMBLYAI_API_KEY ASSEMBLYAI_PLACEHOLDER then
    (s, banner ++ [Err MissingAssemblyKey])
  else if String.eqb apiKey OPENAI_PLACEHOLDER then
    (s, banner ++ [Err MissingOpenAIKey])
  else
    (set_ws (Some CONNECTING) s,
     banner ++ [Connect YOUR_ASSEMBLYAI_API_KEY; InstallHandlers]).

(** The first two checks of [run]. *)
Definition credentialsMissing (ASSEMBLYAI_API_KEY OPENAI_API_KEY : option string)
  : bool :=
  String.eqb (envOr ASSEMBLYAI_API_KEY ASSEMBLYAI_PLACEHOLDER) ASSEMBLYAI_PLACEHOLDER
  || String.eqb (envOr OPENAI_API_KEY OPENAI_PLACEHOLDER) OPENAI_PLACEHOLDER.

(** What the event loop delivers.  [EvReadyState] is the socket library moving
    the socket to another [readyState]; it is seen by the script only through
    the variable [ws]. *)
Inductive event :=
| EvOpen (fault : micFault)
| EvReadyState (rs : readyState)
| EvMessage (message : option json)
| EvError
| EvClose
| EvMicData (frame : list byte)
| EvMicError
| EvSIGINT
| EvSIGTERM
| EvUncaught.

Definition handle (rt : Runtime) (ev : event) (s : Session)
  : Session * list effect :=
  match ev with
  | EvOpen fault => onOpen rt fault s
  | EvReadyState rs =>
      (match ws s with Some _ => set_ws (Some rs) s | None => s end, [])
  | EvMessage message => onMessage rt message s
  | EvError => onError rt s
  | EvClose => onClose rt s
  | EvMicData frame => onMicData frame s
  | EvMicError => onMicError rt s
  | EvSIGINT => onSIGINT rt s
  | EvSIGTERM => onSIGTERM rt s
  | EvUncaught => onUncaughtException rt s
  end.

Fixpoint handleAll (rt : Runtime) (evs : list event) (s : Session)
  : Session * list effect :=
  match evs with
  | [] => (s, [])
  | ev :: rest =>
      let '(s1, e1) := handle rt ev s in
      let '(s2, e2) := handleAll rt rest s1 in
      (s2, e1 ++ e2)
  end.

(** The script from its first line: [run()], then the events, which reach a
    handler only when [run] got as far as registering them. *)
Definition main (rt : Runtime) (ASSEMBLYAI_API_KEY OPENAI_API_KEY : option string)
  (evs : list event) : Session * list effect :=
  let '(s, e) := run ASSEMBLYAI_API_KEY OPENAI_API_KEY initial in
  match ws s with
  | Some _ => let '(s', e') := handleAll rt evs s in (s', Out Launch :: e ++ e')
  | None => (s, Out Launch :: e)
  end.

(** The status the process ends with: that of the first [process.exit]
    scheduled, and 0, the default of the runtime, when the script never
    schedules one. *)
Fixpoint exitStatus (trace : list effect) : Z :=
  match trace with
  | [] => 0
  | ExitAfterGrace status :: _ => status
  | _ :: rest => exitStatus rest
  end.

(** The events of the transcription service as the data model names them, and
    the JSON object each one arrives as. *)
Inductive TranscriptionEvent :=
| Begin (sessionId : string) (expiresAt : Z)
| Turn (text : string) (isFinal : bool)
| Termination (audioDurationSeconds sessionDurationSeconds : Z).

Definition wire (e : TranscriptionEvent) : json :=
  match e with
  | Begin sessionId expiresAt =>
      JObj [("type", JStr "Begin"); ("id", JStr sessionId);
            ("expires_at", JNum expiresAt)]
  | Turn text isFinal =>
      JObj [("type", JStr "Turn"); ("transcript", JStr text);
            ("turn_is_formatted", JBool isFinal)]
  | Termination audioDurationSeconds sessionDurationSeconds =>
      JObj [("type", JStr "Termination");
            ("audio_duration_seconds", JNum audioDurationSeconds);
            ("session_duration_seconds", JNum sessionDurationSeconds)]
  end.

Definition deliver (e : TranscriptionEvent) : event := EvMessage (Some (wire e)).

(** The text of the final turns, in order, each followed by one space. *)
Fixpoint finalText (evs : list TranscriptionEvent) : string :=
  match evs with
  | [] => ""
  | Turn text true :: rest => text +:+ " " +:+ finalText rest
  | _ :: rest => finalText rest
  end.

(** A message the handler does not act on: malformed, [null], or without one
    of the three discriminants. *)
Definition unrecognised (message : option json) : bool :=
  match message with
  | None => true
  | Some data =>
      negb (is_string (get data "type") "Begin"
            || is_string (get data "type") "Turn"
            || is_string (get data "type") "Termination")
  end.

(** Observations on a trace. *)
Definition notesArtifacts (trace : list effect) : list string :=
  omap (fun e => match e with WriteNotes n => Some n | _ => None end) trace.

Definition audioArtifacts (trace : list effect) : list (list byte) :=
  omap (fun e => match e with WriteWav f => Some f | _ => None end) trace.

Definition generatorCalls (trace : list effect) : list string :=
  omap (fun e => match e with ChatRequest t => Some t | _ => None end) trace.

Definition forwardedFrames (trace : list effect) : list (list byte) :=
  omap (fun e => match e with SendAudio f => Some f | _ => None end) trace.

Definition connections (trace : list effect) : list string :=
  omap (fun e => match e with Connect a => Some a | _ => None end) trace.

Definition micStarts (trace : list effect) : nat :=
  length (List.filter (fun e => match e with MicStart => true | _ => false end) trace).

Definition terminateMessages (trace : list effect) : nat :=
  length (omap (fun e => match e with SendTerminate => Some e | _ => None end) trace).

Definition socketCloses (trace : list effect) : nat :=
  length (omap (fun e => match e with CloseSocket => Some e | _ => None end) trace).

Definition micStops (trace : list effect) : nat :=
  length (omap (fun e => match e with MicStop => Some e | _ => None end) trace).


(** What is written to the socket or asked of it. *)
Definition touchesSocket (e : effect) : bool :=
  match e with
  | SendAudio _ | SendTerminate | CloseSocket => true
  | _ => false
  end.


(** The events whose handler runs [cleanup]. *)
Definition runsCleanup (ev : event) : bool :=
  match ev with
  | EvOpen NoFault | EvReadyState _ | EvMessage _ | EvMicData _ => false
  | _ => true
  end.


(** The text a [Turn] message carries: [data.transcript || ""] as a string. *)
Definition turnText (rt : Runtime) (ev : event) : string :=
  match ev with
  | EvMessage (Some data) =>
      if truthy (get data "transcript")
      then text rt (default JNull (get data "transcript"))
      else ""
  | _ => ""
  end.

(** The part of a trace that reaches the socket. *)
Definition socketEffects (trace : list effect) : list effect :=
  omap (fun e => if touchesSocket e then Some e else None) trace.

(** [Turn] messages that the handler appends: the discriminant is Turn and
    [turn_is_formatted] is truthy. *)
Definition appendsTurn (ev : event) : bool :=
  match ev with
  | EvMessage (Some data) =>
      is_string (get data "type") "Turn" && truthy (get data "turn_is_formatted")
  | _ => false
  end.

(** What a sequence of events appends to the transcript. *)
Fixpoint appendedText (rt : Runtime) (evs : list event) : string :=
  match evs with
  | [] => ""
  | ev :: rest =>
      (if appendsTurn ev then turnText rt ev +:+ " " else "")
      +:+ appendedText rt rest
  end.

End Cli.

(** ** server.js *)

Module Server.
Import Js.

(** What the server obtains from the runtime. *)
Record Platform := {
  (** ToString of a parsed value that is not a string *)
  toString : json -> string;
  (** [crypto.createHash('sha256').update(pw).digest('hex')] for a string *)
  sha256hex : string -> string
}.

(** What one request draws from [crypto] and the clock. *)
Record Entropy := {
  randomUUID : string;
  randomBytes16 : list byte;
  now : Z
}.

(** A value found under [db.tokens[token]]: a user id stored by a login, or a
    member that the object inherits from [Object.prototype]. *)
Inductive userRef :=
| UserId (id : string)
| Inherited (name : string).

Record user := mkUser {
  user_id : string;
  user_username : json;
  user_passwordHash : string
}.

Record note := mkNote {
  note_id : string;
  note_userId : userRef;
  note_transcript : json;
  note_notes : string;
  note_createdAt : Z
}.

Record DB := mkDB {
  db_users : list user;
  db_notes : list note;
  db_tokens : gmap string string
}.

Definition emptyDB : DB := mkDB [] [] ∅.

Record request := mkRequest {
  method : string;
  url : string;
  (** [req.headers['authorization']] *)
  authorization : option string;
  (** [JSON.parse(body || '{}')]; [None] when it throws *)
  body : option json
}.

Inductive payload :=
| Error (message : string)
| Registered (id : string) (username : json)
| Token (token : string)
| Note (n : note)
| Notes (ns : list note).

(** The outcome of one request: the database afterwards, whether [saveDB] ran,
    and what [send] wrote. *)
Record outcome := mkOutcome {
  db_after : DB;
  saved : bool;
  status : Z;
  sent : payload
}.

Definition send (db : DB) (saved : bool) (status : Z) (data : payload) : outcome :=
  mkOutcome db saved status data.

Definition hexDigit (n : Z) : ascii :=
  ascii_of_nat (Z.to_nat (if n <? 10 then 48 + n else 87 + n)).

(** [buf.toString('hex')] *)
Fixpoint hex (bytes : list byte) : string :=
  match bytes with
  | [] => EmptyString
  | b :: rest =>
      String (hexDigit (byte.unsigned b / 16))
        (String (hexDigit (byte.unsigned b mod 16)) (hex rest))
  end.

(** [hashPassword(pw)]: [update] throws a TypeError on anything that is not a
    string (or a buffer, which no parsed body holds). *)
Definition hashPassword (pf : Platform) (pw : value) : option string :=
  match pw with
  | Some (JStr s) => Some (sha256hex pf s)
  | _ => None
  end.

(** The names every object literal inherits from [Object.prototype]. *)
Definition objectPrototype : list string :=
  ["constructor"; "__defineGetter__"; "__defineSetter__"; "hasOwnProperty";
   "__lookupGetter__"; "__lookupSetter__"; "isPrototypeOf";
   "propertyIsEnumerable"; "toString"; "valueOf"; "__proto__";
   "toLocaleString"].

(** [db.tokens[token]] *)
Definition tokenLookup (db : DB) (token : string) : option userRef :=
  match db_tokens db !! token with
  | Some id => Some (UserId id)
  | None =>
      if existsb (String.eqb token) objectPrototype
      then Some (Inherited token)
      else None
  end.

(** [!userId] *)
Definition falsy (r : option userRef) : bool :=
  match r with
  | None => true
  | Some (UserId id) => String.eqb id ""
  | Some (Inherited _) => false
  end.

(** [n.userId === userId] *)
Definition sameUser (a b : userRef) : bool :=
  match a, b with
  | UserId x, UserId y => String.eqb x y
  | Inherited x, Inherited y => String.eqb x y
  | _, _ => false
  end.

(** [requireAuth]: the user reference, or [None] after a 401 was sent. *)
Definition requireAuth (db : DB) (req : request) : option userRef :=
  let auth := default "" (authorization req) in
  let token := remove_first "Bearer " auth in
  let userId := tokenLookup db token in
  if falsy userId then None else userId.

(** [send(res, 401, ...)] in [requireAuth], and the [catch] of the handlers. *)
Definition unauthorized (db : DB) : outcome :=
  send db false 401 (Error "Unauthorized").

Definition serverError (db : DB) : outcome :=
  send db false 500 (Error "server error").

(** [db.users.find(u => u.username === username)] *)
Definition findUser (db : DB) (username : value) : option user :=
  match username with
  | Some name => List.find (fun u => strict_eq (user_username u) name) (db_users db)
  | None => None
  end.

(** The branch [POST /register] of [handleRequest]. *)
Definition register (pf : Platform) (en : Entropy) (req : request) (db : DB)
  : outcome :=
  match body req with
  | None => serverError db
  | Some body =>
      match prop body "username" with
      | None => serverError db
      | Some username =>
          let password := get body "password" in
          if negb (truthy username) || negb (truthy password) then
            send db false 400 (Error "username and password required")
          else
            match findUser db username with
            | Some _ => send db false 409 (Error "user exists")
            | None =>
                match hashPassword pf password with
                | None => serverError db
                | Some passwordHash =>
                    let user := mkUser (randomUUID en)
                                  (default JNull username) passwordHash in
                    let db := mkDB (db_users db ++ [user]) (db_notes db)
                                (db_tokens db) in
                    send db true 201
                      (Registered (user_id user) (user_username user))
                end
            end
      end
  end.

(** The branch [POST /login] of [handleRequest]. *)
Definition login (pf : Platform) (en : Entropy) (req : request) (db : DB)
  : outcome :=
  match body req with
  | None => serverError db
  | Some body =>
      match prop body "username" with
      | None => serverError db
      | Some username =>
          let password := get body "password" in
          match findUser db username with
          | None => send db false 401 (Error "invalid credentials")
          | Some user =>
              match hashPassword pf password with
              | None => serverError db
              | Some h =>
                  if negb (String.eqb (user_passwordHash user) h) then
                    send db false 401 (Error "invalid credentials")
                  else
                    let token := hex (randomBytes16 en) in
                    let db := mkDB (db_users db) (db_notes db)
                                (<[token := user_id user]> (db_tokens db)) in
                    send db true 200 (Token token)
              end
          end
      end
  end.

(** The branch [POST /notes] of [handleRequest]. *)
Definition createNote (pf : Platform) (en : Entropy) (req : request) (db : DB)
  : outcome :=
  match requireAuth db req with
  | None => unauthorized db
  | Some userId =>
      match body req with
      | None => serverError db
      | Some body =>
          match prop body "transcript" with
          | None => serverError db
          | Some transcript =>
              if negb (truthy transcript) then
                send db false 400 (Error "transcript required")
              else
                let transcript := default JNull transcript in
                (* Placeholder for OpenAI note generation *)
                let notes :=
                  "Notes for: " +:+ match transcript with
                                    | JStr s => s
                                    | _ => toString pf transcript
                                    end in
                let note := mkNote (randomUUID en) userId transcript notes
                              (now en) in
                let db := mkDB (db_users db) (db_notes db ++ [note])
                            (db_tokens db) in
                send db true 201 (Note note)
          end
      end
  end.

(** The branch [GET /notes] of [handleRequest]. *)
Definition listNotes (req : request) (db : DB) : outcome :=
  match requireAuth db req with
  | None => unauthorized db
  | Some userId =>
      let userNotes :=
        List.filter (fun n => sameUser (note_userId n) userId) (db_notes db) in
      send db false 200 (Notes userNotes)
  end.

Definition handleRequest (pf : Platform) (en : Entropy) (req : request) (db : DB)
  : outcome :=
  if String.eqb (method req) "POST" && String.eqb (url req) "/register" then
    register pf en req db
  else if String.eqb (method req) "POST" && String.eqb (url req) "/login" then
    login pf en req db
  else if String.eqb (method req) "POST" && String.eqb (url req) "/notes" then
    createNote pf en req db
  else if String.eqb (method req) "GET" && String.eqb (url req) "/notes" then
    listNotes req db
  else send db false 404 (Error "Not found").

(** The four routes of [handleRequest]. *)
Definition knownRoute (req : request) : bool :=
  String.eqb (method req) "POST"
  && (String.eqb (url req) "/register" || String.eqb (url req) "/login"
      || String.eqb (url req) "/notes")
  || String.eqb (method req) "GET" && String.eqb (url req) "/notes".

(** No stored user name is strictly equal to a later one. *)
Fixpoint distinctNames (users : list user) : Prop :=
  match users with
  | [] => True
  | u :: rest =>
      Forall (fun v => strict_eq (user_username u) (user_username v) = false) rest
      /\ distinctNames rest
  end.

(** Every stored token holds the id of a stored user. *)
Definition tokensReferToUsers (db : DB) : Prop :=
  forall token id,
    db_tokens db !! token = Some id ->
    exists u, In u (db_users db) /\ user_id u = id.

(** The characters of [toString('hex')]. *)
Definition isHexChar (c : ascii) : bool :=
  let n := nat_of_ascii c in
  ((48 <=? n) && (n <=? 57) || (97 <=? n) && (n <=? 102))%nat.

Fixpoint isHex (s : string) : bool :=
  match s with
  | EmptyString => true
  | String c rest => isHexChar c && isHex rest
  end.

(** Every stored note of a user id belongs to a stored user. *)
Definition notesReferToUsers (db : DB) : Prop :=
  forall n id,
    In n (db_notes db) -> note_userId n = UserId id ->
    exists u, In u (db_users db) /\ user_id u = id.

(** A password that [update] does not take. *)
Definition notAString (v : value) : Prop :=
  match v with
  | Some (JStr _) => False
  | _ => True
  end.

(** The reading side of [hex], used to state that the token keeps all the
    random bytes. *)
Definition unhexDigit (c : ascii) : Z :=
  let n := Z.of_nat (nat_of_ascii c) in
  if n <? 58 then n - 48 else n - 87.

Fixpoint unhex (s : string) : list byte :=
  match s with
  | String hi (String lo rest) =>
      byte.of_Z (16 * unhexDigit hi + unhexDigit lo) :: unhex rest
  | _ => []
  end.

(** The server over a sequence of requests, each with what it draws from
    [crypto] and the clock, handled one after the other: the wait for the body
    inside a request is not interleaved with other requests. *)
Fixpoint serveAll (pf : Platform) (requests : list (Entropy * request)) (db : DB)
  : DB :=
  match requests with
  | [] => db
  | (en, req) :: rest => serveAll pf rest (db_after (handleRequest pf en req db))
  end.

End Server.

(** ** Inputs used in the examples *)

Module Fixtures.
Import Js.

Definition runtime : Cli.Runtime :=
  {| Cli.toString := fun _ => "[object Object]";
     Cli.toISOString := fun _ => Some "2025-01-01T00:00:00.000Z";
     Cli.chatCompletion := fun _ => Some "## TODO" |}.

(** A session in progress: socket open, two frames and one final turn received. *)
Definition recording : Cli.Session :=
  Cli.mkSession true (Some Cli.OPEN) false
    [[Byte.x01; Byte.x02]; [Byte.x03; Byte.x04]] "buy milk ".


Definition platform : Server.Platform :=
  {| Server.toString := fun _ => "[object Object]";
     Server.sha256hex := fun pw => "sha256:" +:+ pw |}.

Definition entropy : Server.Entropy :=
  {| Server.randomUUID := "3f2b0c9e-0000-4000-8000-000000000001";
     Server.randomBytes16 :=
       [Byte.x00; Byte.x01; Byte.x02; Byte.x03; Byte.x04; Byte.x05; Byte.x06;
        Byte.x07; Byte.x08; Byte.x09; Byte.x0a; Byte.x0b; Byte.x0c; Byte.x0d;
        Byte.x0e; Byte.xff];
     Server.now := 1700000000000 |}.

Definition credentials (username password : string) : json :=
  JObj [("username", JStr username); ("password", JStr password)].

End Fixtures.

(** * Properties of the WAV writer *)

Section WavFacts.
Import Wav.

Lemma u32_in_range v :
  0 <= v <= 4294967295 -> (0 <=? v) && (v <=? 4294967295) = true.
Proof. intros. apply andb_true_iff; split; apply Z.leb_le; lia. Qed.

Lemma u16_in_range v :
  0 <= v <= 65535 -> (0 <=? v) && (v <=? 65535) = true.
Proof. intros. apply andb_true_iff; split; apply Z.leb_le; lia. Qed.

Lemma u32_round_trip v : 0 <= v <= 4294967295 -> le_combine (le_split 4 v) = v.
Proof. intros. rewrite le_combine_split. apply Z.mod_small. lia. Qed.

Lemma u16_round_trip v : 0 <= v <= 65535 -> le_combine (le_split 2 v) = v.
Proof. intros. rewrite le_combine_split. apply Z.mod_small. lia. Qed.

(** The header of eight bytes of 16 kHz mono audio, byte for byte. *)
Example header_16k_mono_8_bytes :
  createWavHeader 16000 1 8
  = Some [Byte.x52; Byte.x49; Byte.x46; Byte.x46;  Byte.x2c; Byte.x00; Byte.x00; Byte.x00;
          Byte.x57; Byte.x41; Byte.x56; Byte.x45;  Byte.x66; Byte.x6d; Byte.x74; Byte.x20;
          Byte.x10; Byte.x00; Byte.x00; Byte.x00;  Byte.x01; Byte.x00;  Byte.x01; Byte.x00;
          Byte.x80; Byte.x3e; Byte.x00; Byte.x00;  Byte.x00; Byte.x7d; Byte.x00; Byte.x00;
          Byte.x02; Byte.x00;  Byte.x10; Byte.x00;
          Byte.x64; Byte.x61; Byte.x74; Byte.x61;  Byte.x08; Byte.x00; Byte.x00; Byte.x00].
Proof. reflexivity. Qed.

(** A negative length, too many channels and a length beyond the field are
    range errors. *)
Example header_range_errors :
  createWavHeader 16000 1 (-1) = None
  /\ createWavHeader 16000 32768 8 = None
  /\ createWavHeader 16000 1 4294967260 = None
  /\ createWavHeader 16000 1 4294967259 <> None.
Proof. repeat split; try reflexivity. discriminate. Qed.

(** Within the ranges of its fields, [createWavHeader] returns the canonical
    layout. *)
Lemma createWavHeader_layout R C L :
  0 <= L -> 36 + L <= 4294967295 -> 0 <= R <= 4294967295 ->
  0 <= C -> C * 2 <= 65535 -> R * C * 2 <= 4294967295 ->
  createWavHeader R C L =
  Some (layout (le_split 4 (36 + L)) (le_split 2 C) (le_split 4 R)
          (le_split 4 (R * C * 2)) (le_split 2 (C * 2)) (le_split 4 L)).
Proof.
  intros HL HL' HR HC HC' HB.
  unfold createWavHeader, writeUInt32LE, writeUInt16LE.
  rewrite !u32_in_range, !u16_in_range by nia.
  pose proof (length_le_split 4 (36 + L)) as H1.
  pose proof (length_le_split 2 C) as H2.
  pose proof (length_le_split 4 R) as H3.
  pose proof (length_le_split 4 (R * C * 2)) as H4.
  pose proof (length_le_split 2 (C * 2)) as H5.
  pose proof (length_le_split 4 L) as H6.
  generalize dependent (le_split 4 (36 + L)); intros c1 H1.
  generalize dependent (le_split 2 C); intros c2 H2.
  generalize dependent (le_split 4 R); intros c3 H3.
  generalize dependent (le_split 4 (R * C * 2)); intros c4 H4.
  generalize dependent (le_split 2 (C * 2)); intros c5 H5.
  generalize dependent (le_split 4 L); intros c6 H6.
  sized c1 4%nat. sized c2 2%nat. sized c3 4%nat.
  sized c4 4%nat. sized c5 2%nat. sized c6 4%nat.
  reflexivity.
Qed.

(** Where each field and tag sits in the layout, whatever follows it. *)
Lemma layout_read c1 c2 c3 c4 c5 c6 (payload : list byte) :
  length c1 = 4%nat -> length c2 = 2%nat -> length c3 = 4%nat ->
  length c4 = 4%nat -> length c5 = 2%nat -> length c6 = 4%nat ->
  let file := layout c1 c2 c3 c4 c5 c6 ++ payload in
  length (layout c1 c2 c3 c4 c5 c6) = 44%nat
  /\ skipn 44 file = payload
  /\ tag file 0 = "RIFF" /\ tag file 8 = "WAVE"
  /\ tag file 12 = "fmt " /\ tag file 36 = "data"
  /\ field file 4 4 = le_combine c1
  /\ field file 16 4 = 16
  /\ field file 20 2 = 1
  /\ field file 22 2 = le_combine c2
  /\ field file 24 4 = le_combine c3
  /\ field file 28 4 = le_combine c4
  /\ field file 32 2 = le_combine c5
  /\ field file 34 2 = 16
  /\ field file 40 4 = le_combine c6.
Proof.
  intros H1 H2 H3 H4 H5 H6.
  sized c1 4%nat. sized c2 2%nat. sized c3 4%nat.
  sized c4 4%nat. sized c5 2%nat. sized c6 4%nat.
  repeat split; reflexivity.
Qed.

Lemma length_concat_repeat {A} (frame : list A) n :
  length (concat (repeat frame n)) = (n * length frame)%nat.
Proof.
  induction n as [|n IH]; [reflexivity|].
  cbn [repeat concat]. rewrite length_app, IH. lia.
Qed.

End WavFacts.

Section WavEncoding.
Import Wav Cli.

(** C4 (amended).  For a sequence of frames with total byte length [L], a
    sample rate [R] and a channel count [C] such that every header field fits
    its width ([36 + L] and [R * C * 2] below [2^32], [C * 2] below [2^16]),
    [createWavHeader] returns a 44-byte header whose little-endian fields read
    ChunkSize [36 + L], format code 1, channel count [C], sample rate [R],
    ByteRate [R * C * 2], BlockAlign [C * 2], BitsPerSample 16 and
    Subchunk2Size [L]; the header followed by the concatenated frames has
    length [44 + L] and decodes to exactly the concatenated frames; and, for a
    non-empty sequence and the rate and channel count of the script,
    [saveWavFile] writes that file and no other. *)
Theorem wav_encoding_in_range (frames : list (list byte)) (R C : Z) :
  let payload := concat frames in
  let L := Z.of_nat (length payload) in
  frames <> [] ->
  36 + L <= 4294967295 ->
  0 <= R <= 4294967295 -> 0 <= C -> C * 2 <= 65535 -> R * C * 2 <= 4294967295 ->
  exists header,
    createWavHeader R C L = Some header
    /\ length header = 44%nat
    /\ Z.of_nat (length (header ++ payload)) = 44 + L
    /\ skipn 44 (header ++ payload) = payload
    /\ field (header ++ payload) 4 4 = 36 + L
    /\ field (header ++ payload) 20 2 = 1
    /\ field (header ++ payload) 22 2 = C
    /\ field (header ++ payload) 24 4 = R
    /\ field (header ++ payload) 28 4 = R * C * 2
    /\ field (header ++ payload) 32 2 = C * 2
    /\ field (header ++ payload) 34 2 = 16
    /\ field (header ++ payload) 40 4 = L
    /\ decodeWav (header ++ payload) = Some payload
    /\ (R = SAMPLE_RATE -> C = CHANNELS ->
        forall s, recordedFrames s = frames ->
                  audioArtifacts (saveWavFile s) = [header ++ payload]).
Proof.
  intros payload L Hne HL HR HC HC' HB.
  assert (0 <= L) as HL0 by (subst L; lia).
  pose proof (createWavHeader_layout R C L HL0 HL HR HC HC' HB) as Hhdr.
  eexists; split; [exact Hhdr|].
  destruct (layout_read (le_split 4 (36 + L)) (le_split 2 C) (le_split 4 R)
              (le_split 4 (R * C * 2)) (le_split 2 (C * 2)) (le_split 4 L)
              payload)
    as (Hlen & Hskip & T0 & T8 & T12 & T36 & F4 & F16 & F20 & F22 & F24 & F28
        & F32 & F34 & F40); try apply length_le_split.
  assert (decodeWav
            (layout (le_split 4 (36 + L)) (le_split 2 C) (le_split 4 R)
               (le_split 4 (R * C * 2)) (le_split 2 (C * 2)) (le_split 4 L)
             ++ payload) = Some payload) as Hdec.
  { unfold decodeWav. rewrite T0, T8, T12, T36, F40, Hskip.
    rewrite u32_round_trip by lia.
    rewrite length_app, Hlen. fold L. rewrite Z.eqb_refl.
    replace (44 <=? 44 + length payload)%nat with true
      by (symmetry; apply Nat.leb_le; lia).
    reflexivity. }
  repeat split; try assumption.
  - rewrite length_app, Hlen. subst L. lia.
  - rewrite F4. apply u32_round_trip. lia.
  - rewrite F22. apply u16_round_trip. lia.
  - rewrite F24. apply u32_round_trip. lia.
  - rewrite F28. apply u32_round_trip. nia.
  - rewrite F32. apply u16_round_trip. lia.
  - rewrite F40. apply u32_round_trip. lia.
  - intros -> -> s Hs. unfold saveWavFile. rewrite Hs.
    destruct frames as [|f rest]; [contradiction|].
    fold payload. fold L. rewrite Hhdr. reflexivity.
Qed.

(** At a concrete input: three frames, 8 bytes in all, at 16 kHz mono. *)
Lemma wav_encoding_in_range_witness :
  exists header,
    createWavHeader 16000 1 8 = Some header
    /\ field header 4 4 = 44
    /\ decodeWav (header ++ [Byte.x01; Byte.x02; Byte.x03; Byte.x04;
                             Byte.x05; Byte.x06; Byte.x07; Byte.x08])
       = Some [Byte.x01; Byte.x02; Byte.x03; Byte.x04;
               Byte.x05; Byte.x06; Byte.x07; Byte.x08].
Proof.
  destruct (wav_encoding_in_range
              [[Byte.x01; Byte.x02]; [Byte.x03; Byte.x04; Byte.x05; Byte.x06];
               [Byte.x07; Byte.x08]] 16000 1)
    as (header & Hhdr & _ & _ & _ & F4 & _ & _ & _ & _ & _ & _ & _ & Hdec & _);
    [discriminate | simpl; lia | lia | lia | lia | lia |].
  exists header. split; [exact Hhdr|]. split; [|exact Hdec].
  revert F4. destruct header as [|? ?]; [discriminate Hhdr|].
  injection Hhdr as <- <-. vm_compute. reflexivity.
Defined.

(** C4, as stated, fails: 1048576 frames of 4096 bytes add up to [2^32] bytes,
    the ChunkSize [36 + 2^32] does not fit its field, [writeUInt32LE] throws and
    [saveWavFile] writes no file. *)
Lemma wav_encoding_out_of_range :
  repeat (repeat Byte.x00 4096) (Z.to_nat 1048576) <> []
  /\ Z.of_nat (length (concat (repeat (repeat Byte.x00 4096) (Z.to_nat 1048576))))
     = 4294967296
  /\ createWavHeader SAMPLE_RATE CHANNELS 4294967296 = None
  /\ saveWavFile
       (mkSession true (Some OPEN) false
          (repeat (repeat Byte.x00 4096) (Z.to_nat 1048576)) "")
     = [Err WavError].
Proof.
  set (frames := repeat (repeat Byte.x00 4096) (Z.to_nat 1048576)).
  assert (Z.of_nat (length (concat frames)) = 4294967296) as HL.
  { subst frames. rewrite length_concat_repeat, repeat_length.
    rewrite Nat2Z.inj_mul, Z2Nat.id by lia. reflexivity. }
  assert (exists f rest, frames = f :: rest) as (f & rest & Hf).
  { subst frames. replace (Z.to_nat 1048576) with (S (Z.to_nat 1048575)) by lia.
    cbn [repeat]. eauto. }
  split; [rewrite Hf; discriminate|].
  split; [exact HL|].
  split; [reflexivity|].
  unfold saveWavFile. cbn [recordedFrames]. rewrite HL. rewrite Hf at 1.
  reflexivity.
Qed.

End WavEncoding.

(** * Properties of the command line flow *)

Section CliFacts.
Import Js Cli.
Context (rt : Runtime).

Example blank_examples :
  blank "" = true /\ blank " " = true /\ blank "buy milk " = false.
Proof. repeat split; reflexivity. Qed.

(** A whole session: both keys set, the socket opens, two frames, three turns,
    Termination, then the close. *)
Example whole_session :
  let trace :=
    snd (main Fixtures.runtime (Some "aai-live") (Some "sk-live")
           [EvReadyState OPEN; EvOpen NoFault;
            EvMicData [Byte.x01; Byte.x02]; deliver (Turn "buy milk" true);
            deliver (Turn "call mom" false); EvMicData [Byte.x03; Byte.x04];
            deliver (Turn "call mom" true); deliver (Termination 3 4);
            EvReadyState CLOSED; EvClose]) in
  forwardedFrames trace = [[Byte.x01; Byte.x02]; [Byte.x03; Byte.x04]]
  /\ generatorCalls trace
     = ["buy milk call mom "; "buy milk call mom "; "buy milk call mom "]
  /\ length (audioArtifacts trace) = 1%nat
  /\ exitStatus trace = 0.
Proof. repeat split; reflexivity. Qed.

Lemma append_assoc (a b c : string) : (a +:+ b) +:+ c = a +:+ (b +:+ c).
Proof.
  induction a as [|x a IH]; [reflexivity|].
  change (String x ((a +:+ b) +:+ c) = String x (a +:+ (b +:+ c))).
  now rewrite IH.
Qed.

Lemma append_nil_r (a : string) : a +:+ "" = a.
Proof.
  induction a as [|x a IH]; [reflexivity|].
  change (String x (a +:+ "") = String x a). now rewrite IH.
Qed.

Lemma notesArtifacts_app a b :
  notesArtifacts (a ++ b) = notesArtifacts a ++ notesArtifacts b.
Proof. apply omap_app. Qed.

Lemma audioArtifacts_app a b :
  audioArtifacts (a ++ b) = audioArtifacts a ++ audioArtifacts b.
Proof. apply omap_app. Qed.

Lemma generatorCalls_app a b :
  generatorCalls (a ++ b) = generatorCalls a ++ generatorCalls b.
Proof. apply omap_app. Qed.

Lemma forwardedFrames_app a b :
  forwardedFrames (a ++ b) = forwardedFrames a ++ forwardedFrames b.
Proof. apply omap_app. Qed.



Lemma generatorCalls_cons e l :
  generatorCalls (e :: l)
  = match e with ChatRequest t => t :: generatorCalls l | _ => generatorCalls l end.
Proof. destruct e; reflexivity. Qed.

Lemma forwardedFrames_cons e l :
  forwardedFrames (e :: l)
  = match e with SendAudio f => f :: forwardedFrames l | _ => forwardedFrames l end.
Proof. destruct e; reflexivity. Qed.

(** The effects of [cleanup], step by step. *)
Lemma cleanup_effects s :
  snd (cleanup rt s) = notesIfTranscript rt s ++ saveWavFile s ++ closing s.
Proof.
  destruct s as [m [[]|] st fr tr]; destruct m; reflexivity.
Qed.

Lemma cleanup_session s :
  let s' := fst (cleanup rt s) in
  stopRequested s' = true
  /\ micInstance s' = false
  /\ recordedFrames s' = recordedFrames s
  /\ fullTranscript s' = fullTranscript s
  /\ ws s' = match ws s with
             | Some OPEN | Some CONNECTING => None
             | w => w
             end.
Proof.
  destruct s as [m [[]|] st fr tr]; destruct m; cbn; repeat split; reflexivity.
Qed.

Lemma closing_silent s :
  notesArtifacts (closing s) = [] /\ audioArtifacts (closing s) = []
  /\ generatorCalls (closing s) = [] /\ forwardedFrames (closing s) = [].
Proof.
  unfold closing. destruct (micInstance s); destruct (ws s) as [[]|]; cbn;
    repeat split; reflexivity.
Qed.

Lemma saveWavFile_observed s :
  notesArtifacts (saveWavFile s) = [] /\ generatorCalls (saveWavFile s) = []
  /\ forwardedFrames (saveWavFile s) = [].
Proof.
  unfold saveWavFile. destruct (recordedFrames s); [cbn; auto|].
  destruct (Wav.createWavHeader _ _ _); cbn; repeat split; reflexivity.
Qed.

Lemma notesIfTranscript_observed s :
  audioArtifacts (notesIfTranscript rt s) = []
  /\ forwardedFrames (notesIfTranscript rt s) = []
  /\ generatorCalls (notesIfTranscript rt s)
     = (if blank (fullTranscript s) then [] else [fullTranscript s])
  /\ notesArtifacts (notesIfTranscript rt s)
     = (if blank (fullTranscript s) then []
        else match chatCompletion rt (fullTranscript s) with
             | Some notes => [notes]
             | None => []
             end).
Proof.
  unfold notesIfTranscript, generateNotesFromTranscript.
  destruct (blank (fullTranscript s)); cbn; [repeat split; reflexivity|].
  destruct (chatCompletion rt (fullTranscript s)); cbn; repeat split; reflexivity.
Qed.

Lemma cleanup_observed s :
  notesArtifacts (snd (cleanup rt s)) = notesArtifacts (notesIfTranscript rt s)
  /\ audioArtifacts (snd (cleanup rt s)) = audioArtifacts (saveWavFile s)
  /\ generatorCalls (snd (cleanup rt s)) = generatorCalls (notesIfTranscript rt s)
  /\ forwardedFrames (snd (cleanup rt s)) = [].
Proof.
  rewrite cleanup_effects.
  rewrite !notesArtifacts_app, !audioArtifacts_app, !generatorCalls_app,
    !forwardedFrames_app.
  destruct (closing_silent s) as (-> & -> & -> & ->).
  destruct (saveWavFile_observed s) as (-> & -> & ->).
  destruct (notesIfTranscript_observed s) as (-> & -> & _ & _).
  rewrite !app_nil_r. auto.
Qed.

(** The handlers that do nothing but [cleanup] around a console line. *)
Lemma onError_effects s : snd (onError rt s) = Err SocketFailed :: snd (cleanup rt s).
Proof. unfold onError. destruct (cleanup rt s). reflexivity. Qed.

Lemma onMicError_effects s :
  snd (onMicError rt s) = Err MicStreamError :: snd (cleanup rt s).
Proof. unfold onMicError. destruct (cleanup rt s). reflexivity. Qed.

Lemma onSIGINT_effects s :
  snd (onSIGINT rt s) = Out CtrlC :: snd (cleanup rt s) ++ [ExitAfterGrace 0].
Proof. unfold onSIGINT. destruct (cleanup rt s). reflexivity. Qed.

Lemma onSIGTERM_effects s :
  snd (onSIGTERM rt s)
  = Out TerminationSignal :: snd (cleanup rt s) ++ [ExitAfterGrace 0].
Proof. unfold onSIGTERM. destruct (cleanup rt s). reflexivity. Qed.

Lemma onUncaughtException_effects s :
  snd (onUncaughtException rt s)
  = Err UncaughtException :: snd (cleanup rt s) ++ [ExitAfterGrace 1].
Proof. unfold onUncaughtException. destruct (cleanup rt s). reflexivity. Qed.

Lemma onClose_effects s :
  snd (onClose rt s)
  = Out SocketDisconnected :: notesIfTranscript rt s ++ snd (cleanup rt s).
Proof. unfold onClose. destruct (cleanup rt s). reflexivity. Qed.

Lemma onTermination_effects data s :
  prop data "type" = Some (Some (JStr "Termination")) ->
  onMessage rt (Some data) s
  = (s, Out (SessionTerminated (get data "audio_duration_seconds")
                               (get data "session_duration_seconds"))
        :: notesIfTranscript rt s).
Proof. intros H. unfold onMessage. rewrite H. reflexivity. Qed.

(** Frames whose total length fits the header are written as one file. *)
Lemma saveWavFile_in_range s :
  recordedFrames s <> [] ->
  36 + Z.of_nat (length (concat (recordedFrames s))) <= 4294967295 ->
  exists header,
    Wav.createWavHeader SAMPLE_RATE CHANNELS
      (Z.of_nat (length (concat (recordedFrames s)))) = Some header
    /\ saveWavFile s
       = [WriteWav (header ++ concat (recordedFrames s)); Out AudioSaved;
          Out (Duration (Z.of_nat (length (concat (recordedFrames s)))))].
Proof.
  intros Hne HL.
  pose proof (createWavHeader_layout SAMPLE_RATE CHANNELS
                (Z.of_nat (length (concat (recordedFrames s))))) as Hhdr.
  unfold SAMPLE_RATE, CHANNELS in *.
  rewrite Hhdr by lia. eexists; split; [reflexivity|].
  unfold saveWavFile, SAMPLE_RATE, CHANNELS.
  destruct (recordedFrames s) as [|f rest] eqn:E; [contradiction|].
  rewrite Hhdr by lia. reflexivity.
Qed.

End CliFacts.

Section Shutdown.
Import Js Cli.
Context (rt : Runtime).


(** What the close handler does besides: it generates the notes itself and
    then again inside [cleanup]. *)
Lemma onClose_generates_twice (s : Session) :
  blank (fullTranscript s) = false ->
  generatorCalls (snd (onClose rt s)) = [fullTranscript s; fullTranscript s].
Proof.
  intros Hblank. rewrite onClose_effects, generatorCalls_cons, generatorCalls_app.
  destruct (cleanup_observed rt s) as (_ & _ & -> & _).
  destruct (notesIfTranscript_observed rt s) as (_ & _ & -> & _).
  rewrite Hblank. reflexivity.
Qed.

(** C2 (amended).  [cleanup] has no guard on note generation: each call
    invokes the note generator exactly when the transcript holds more than
    white space, so two calls in succession invoke it twice with the same
    transcript and, when it returns text, write the notes artifact twice; with
    a blank transcript neither call invokes it. *)
Theorem cleanup_twice_generates_twice (s : Session) :
  let first := cleanup rt s in
  let second := cleanup rt (fst first) in
  generatorCalls (snd first ++ snd second)
  = (if blank (fullTranscript s) then []
     else [fullTranscript s; fullTranscript s])
  /\ notesArtifacts (snd first ++ snd second)
     = (if blank (fullTranscript s) then []
        else match chatCompletion rt (fullTranscript s) with
             | Some notes => [notes; notes]
             | None => []
             end).
Proof.
  intros first second. subst first second.
  rewrite generatorCalls_app, notesArtifacts_app.
  destruct (cleanup_observed rt s) as (-> & _ & -> & _).
  destruct (cleanup_observed rt (fst (cleanup rt s))) as (-> & _ & -> & _).
  destruct (notesIfTranscript_observed rt s) as (_ & _ & -> & ->).
  destruct (notesIfTranscript_observed rt (fst (cleanup rt s)))
    as (_ & _ & -> & ->).
  destruct (cleanup_session rt s) as (_ & _ & _ & -> & _).
  destruct (blank (fullTranscript s)); [auto|].
  destruct (chatCompletion rt (fullTranscript s)); auto.
Qed.

End Shutdown.

Section ShutdownExamples.
Import Js Cli Fixtures.



(** C2, as stated, fails: two calls of [cleanup] in succession invoke the note
    generator twice and write the notes twice. *)
Lemma cleanup_twice_is_not_idempotent :
  generatorCalls
    (snd (cleanup runtime recording)
     ++ snd (cleanup runtime
               (fst (cleanup runtime recording))))
  = ["buy milk "; "buy milk "]
  /\ notesArtifacts
       (snd (cleanup runtime recording)
        ++ snd (cleanup runtime
                  (fst (cleanup runtime recording))))
     = ["## TODO"; "## TODO"].
Proof. split; reflexivity. Qed.

End ShutdownExamples.

Section Messages.
Import Js Cli.
Context (rt : Runtime).

Lemma handleAll_cons ev rest s :
  handleAll rt (ev :: rest) s
  = (fst (handleAll rt rest (fst (handle rt ev s))),
     snd (handle rt ev s) ++ snd (handleAll rt rest (fst (handle rt ev s)))).
Proof.
  cbn [handleAll]. destruct (handle rt ev s) as [s1 e1]. cbn [fst snd].
  destruct (handleAll rt rest s1). reflexivity.
Qed.

Lemma handleAll_app evs1 evs2 s :
  handleAll rt (evs1 ++ evs2) s
  = (fst (handleAll rt evs2 (fst (handleAll rt evs1 s))),
     snd (handleAll rt evs1 s)
     ++ snd (handleAll rt evs2 (fst (handleAll rt evs1 s)))).
Proof.
  revert s. induction evs1 as [|ev evs1 IH]; intros s.
  - cbn. destruct (handleAll rt evs2 s). reflexivity.
  - rewrite <- app_comm_cons, !handleAll_cons, IH. cbn [fst snd].
    rewrite app_assoc. reflexivity.
Qed.

(** One delivered event: the session changes in [fullTranscript] only, and
    only on a final turn. *)
Lemma deliver_session (e : TranscriptionEvent) (s : Session) :
  fst (handle rt (deliver e) s)
  = match e with
    | Turn text true => set_fullTranscript (fullTranscript s +:+ text +:+ " ") s
    | _ => s
    end.
Proof.
  destruct e as [sessionId expiresAt | text [] | a d]; cbn.
  - destruct (toISOString rt _); reflexivity.
  - destruct text; reflexivity.
  - destruct text; reflexivity.
  - reflexivity.
Qed.

(** The note generator is reached from a delivered event only on Termination. *)
Lemma deliver_calls (e : TranscriptionEvent) (s : Session) :
  generatorCalls (snd (handle rt (deliver e) s))
  = match e with
    | Termination _ _ =>
        if blank (fullTranscript s) then [] else [fullTranscript s]
    | _ => []
    end.
Proof.
  destruct e as [sessionId expiresAt | text [] | a d]; cbn [handle deliver].
  - cbn. destruct (toISOString rt _); reflexivity.
  - destruct text; reflexivity.
  - destruct text; reflexivity.
  - rewrite onTermination_effects by reflexivity. cbn [snd].
    rewrite generatorCalls_cons.
    now destruct (notesIfTranscript_observed rt s) as (_ & _ & -> & _).
Qed.

Lemma deliver_transcript (e : TranscriptionEvent) (s : Session) :
  fullTranscript (fst (handle rt (deliver e) s))
  = fullTranscript s +:+ finalText [e].
Proof.
  rewrite deliver_session. destruct e as [? ? | text [] | ? ?]; cbn [finalText].
  - now rewrite append_nil_r.
  - cbn [fullTranscript set_fullTranscript]. now rewrite append_nil_r.
  - now rewrite append_nil_r.
  - now rewrite append_nil_r.
Qed.

Lemma finalText_cons e rest : finalText (e :: rest) = finalText [e] +:+ finalText rest.
Proof.
  destruct e as [? ? | text [] | ? ?]; cbn [finalText]; try reflexivity.
  now rewrite append_nil_r, append_assoc.
Qed.

Lemma delivered_transcript (evs : list TranscriptionEvent) (s : Session) :
  fullTranscript (fst (handleAll rt (map deliver evs) s))
  = fullTranscript s +:+ finalText evs.
Proof.
  revert s. induction evs as [|e evs IH]; intros s.
  - cbn. now rewrite append_nil_r.
  - cbn [map]. rewrite handleAll_cons. cbn [fst].
    rewrite IH, deliver_transcript, (finalText_cons e evs), append_assoc.
    reflexivity.
Qed.

(** C3.  For every sequence of events delivered to the message handler,
    [fullTranscript] afterwards is what it was before followed by the text of
    exactly the final turns, in arrival order, each followed by one space; a
    non-final turn leaves the session as it was; and after Begin, a final
    "buy milk", a non-final and a final "call mom" and Termination, starting
    from an empty transcript, the note generator is called once, with
    "buy milk call mom ". *)
Theorem transcript_is_final_turns (evs : list TranscriptionEvent) (s : Session)
  (text sessionId : string) (expiresAt audio duration : Z) :
  fullTranscript (fst (handleAll rt (map deliver evs) s))
  = fullTranscript s +:+ finalText evs
  /\ fst (handle rt (deliver (Turn text false)) s) = s
  /\ generatorCalls
       (snd (handleAll rt
               (map deliver
                  [Begin sessionId expiresAt; Turn "buy milk" true;
                   Turn "call mom" false; Turn "call mom" true;
                   Termination audio duration])
               (set_fullTranscript "" s)))
     = ["buy milk call mom "].
Proof.
  split; [apply delivered_transcript|].
  split; [apply deliver_session|].
  cbn [map]. rewrite !handleAll_cons. cbn [handleAll fst snd].
  rewrite !deliver_session, !generatorCalls_app, !deliver_calls.
  reflexivity.
Qed.

End Messages.

Section Guards.
Import Js Cli.
Context (rt : Runtime).

(** C5.  With no frame recorded, the WAV step reports that nothing was
    recorded and writes no file; so does every [cleanup]. *)
Theorem no_frames_no_file (s : Session) :
  recordedFrames s = [] ->
  saveWavFile s = [Out NoAudio]
  /\ audioArtifacts (saveWavFile s) = []
  /\ audioArtifacts (snd (cleanup rt s)) = [].
Proof.
  intros Hempty.
  assert (saveWavFile s = [Out NoAudio]) as Hsave
    by (unfold saveWavFile; now rewrite Hempty).
  destruct (cleanup_observed rt s) as (_ & -> & _ & _).
  rewrite Hsave. repeat split; reflexivity.
Qed.

Lemma main_without_credentials a o evs :
  credentialsMissing a o = true ->
  main rt a o evs
  = (initial,
     [Out Launch; Out Starting; Out AudioWillBeSaved; Out NotesWillBeGenerated;
      Err (if String.eqb (envOr a ASSEMBLYAI_PLACEHOLDER) ASSEMBLYAI_PLACEHOLDER
           then MissingAssemblyKey else MissingOpenAIKey)]).
Proof.
  unfold credentialsMissing, main, run. intros H.
  destruct (String.eqb (envOr a _) _); [reflexivity|].
  cbn in H. rewrite H. reflexivity.
Qed.

(** C6 (amended).  If either credential is absent from the environment, the
    script stops before any connection attempt: no socket is opened, the
    microphone is not started, no handler is registered and the session stays
    as it was; one explicit message goes to the error stream; and no process
    exit is scheduled, so the process ends with status 0. *)
Theorem missing_credentials_stop_before_connecting
  (ASSEMBLYAI_API_KEY OPENAI_API_KEY : option string) (evs : list event) :
  ASSEMBLYAI_API_KEY = None \/ OPENAI_API_KEY = None ->
  let result := main rt ASSEMBLYAI_API_KEY OPENAI_API_KEY evs in
  fst result = initial
  /\ connections (snd result) = []
  /\ micStarts (snd result) = 0%nat
  /\ ~ In InstallHandlers (snd result)
  /\ (In (Err MissingAssemblyKey) (snd result)
      \/ In (Err MissingOpenAIKey) (snd result))
  /\ exitStatus (snd result) = 0.
Proof.
  intros Habsent result. subst result.
  rewrite main_without_credentials.
  2:{ unfold credentialsMissing.
      destruct Habsent as [-> | ->]; cbn [envOr];
        rewrite ?String.eqb_refl, ?orb_true_r; reflexivity. }
  cbn [fst snd].
  destruct (String.eqb _ _); repeat split; try reflexivity;
    try (cbn; intuition congruence); cbn; auto.
Qed.

(** C7.  A message that is malformed, or that parses without one of the three
    discriminants, leaves the session as it was; the malformed one is logged,
    the one with a foreign discriminant produces no effect at all; and the
    messages and events that follow are handled as if it had not arrived. *)
Theorem unrecognised_message_is_dropped (message : option json) (s : Session)
  (rest : list event) :
  unrecognised message = true ->
  fst (onMessage rt message s) = s
  /\ snd (onMessage rt message s)
     = match message with
       | None | Some JNull => [Err MessageError; Err MessageData]
       | Some _ => []
       end
  /\ handleAll rt (EvMessage message :: rest) s
     = (fst (handleAll rt rest s),
        snd (onMessage rt message s) ++ snd (handleAll rt rest s)).
Proof.
  intros Hun.
  assert (onMessage rt message s
          = (s, match message with
                | None | Some JNull => [Err MessageError; Err MessageData]
                | Some _ => []
                end)) as Hmsg.
  { destruct message as [data|]; [|reflexivity].
    unfold unrecognised in Hun. apply negb_true_iff in Hun.
    apply orb_false_iff in Hun as [Hun Ht]. apply orb_false_iff in Hun as [Hb Hu].
    unfold onMessage, get in *.
    destruct (prop data "type") as [msgType|] eqn:E.
    - rewrite Hb, Hu, Ht. destruct data; try reflexivity. discriminate E.
    - destruct data; try discriminate E. reflexivity. }
  rewrite handleAll_cons. cbn [handle]. rewrite Hmsg. auto.
Qed.

(** The message handler touches [fullTranscript] only and sends no frame. *)
Lemma onMessage_keeps message s :
  let r := onMessage rt message s in
  stopRequested (fst r) = stopRequested s
  /\ recordedFrames (fst r) = recordedFrames s
  /\ forwardedFrames (snd r) = [].
Proof.
  destruct (notesIfTranscript_observed rt s) as (_ & Hf & _ & _).
  unfold onMessage, caught.
  destruct message as [data|]; [|repeat split; reflexivity].
  destruct (prop data "type") as [msgType|]; [|repeat split; reflexivity].
  destruct (is_string msgType "Begin").
  { destruct (toISOString rt _); repeat split; reflexivity. }
  destruct (is_string msgType "Turn").
  { destruct (truthy (get data "turn_is_formatted")); repeat split; reflexivity. }
  destruct (is_string msgType "Termination"); [|repeat split; reflexivity].
  cbn [fst snd]. rewrite forwardedFrames_cons, Hf. repeat split; reflexivity.
Qed.

Lemma cleanup_keeps s :
  stopRequested (fst (cleanup rt s)) = true
  /\ recordedFrames (fst (cleanup rt s)) = recordedFrames s
  /\ forwardedFrames (snd (cleanup rt s)) = [].
Proof.
  destruct (cleanup_session rt s) as (H1 & _ & H2 & _).
  destruct (cleanup_observed rt s) as (_ & _ & _ & H3). auto.
Qed.

(** The session after each handler. *)
Lemma handle_session ev s :
  fst (handle rt ev s)
  = match ev with
    | EvOpen NoFault => set_micInstance true s
    | EvOpen StartFails => fst (cleanup rt (set_micInstance true s))
    | EvReadyState rs => match ws s with Some _ => set_ws (Some rs) s | None => s end
    | EvMessage message => fst (onMessage rt message s)
    | EvMicData frame => fst (onMicData frame s)
    | _ => fst (cleanup rt s)
    end.
Proof.
  destruct ev as [[]| | | | | | | | |]; cbn [handle]; try reflexivity;
    unfold onOpen, startMicrophone, onError, onClose, onMicError, onSIGINT,
      onSIGTERM, onUncaughtException;
    try destruct (cleanup rt _); reflexivity.
Qed.

Lemma onOpen_effects fault s :
  snd (onOpen rt fault s)
  = Out SocketOpened :: Out ConnectedTo ::
    match fault with
    | NoFault => [MicStart; Out MicOpened; Out SpeakNow]
    | CreateFails => Err MicOpenError :: snd (cleanup rt s)
    | StartFails => Err MicOpenError :: snd (cleanup rt (set_micInstance true s))
    end.
Proof.
  unfold onOpen, startMicrophone. destruct fault; [reflexivity| |].
  - destruct (cleanup rt s). reflexivity.
  - destruct (cleanup rt (set_micInstance true s)). reflexivity.
Qed.

(** Only the microphone handler forwards frames. *)
Lemma handle_forwarded ev s :
  forwardedFrames (snd (handle rt ev s))
  = match ev with
    | EvMicData frame => forwardedFrames (snd (onMicData frame s))
    | _ => []
    end.
Proof.
  destruct (cleanup_keeps s) as (_ & _ & H).
  destruct (cleanup_keeps (set_micInstance true s)) as (_ & _ & H').
  destruct (notesIfTranscript_observed rt s) as (_ & Hn & _ & _).
  destruct ev as [[]| | | | | | | | |]; cbn [handle]; try reflexivity.
  - rewrite onOpen_effects. exact H.
  - rewrite onOpen_effects. exact H'.
  - apply onMessage_keeps.
  - rewrite onError_effects. exact H.
  - rewrite onClose_effects, forwardedFrames_cons, forwardedFrames_app, Hn, H.
    reflexivity.
  - rewrite onMicError_effects. exact H.
  - rewrite onSIGINT_effects, forwardedFrames_cons, forwardedFrames_app, H.
    reflexivity.
  - rewrite onSIGTERM_effects, forwardedFrames_cons, forwardedFrames_app, H.
    reflexivity.
  - rewrite onUncaughtException_effects, forwardedFrames_cons,
      forwardedFrames_app, H.
    reflexivity.
Qed.

(** Every handler: what it records is what it forwards. *)
Lemma handle_records ev s :
  recordedFrames (fst (handle rt ev s))
  = recordedFrames s ++ forwardedFrames (snd (handle rt ev s)).
Proof.
  rewrite handle_session, handle_forwarded.
  destruct (cleanup_keeps s) as (_ & H & _).
  destruct (cleanup_keeps (set_micInstance true s)) as (_ & H' & _).
  destruct ev as [[]| | | | | | | | |]; rewrite ?app_nil_r; auto.
  - destruct (ws s); reflexivity.
  - apply onMessage_keeps.
  - unfold onMicData. destruct (ws s) as [[]|]; cbn; rewrite ?app_nil_r; auto.
    destruct (stopRequested s); cbn; rewrite ?app_nil_r; auto.
Qed.

(** Once [stopRequested] is set it stays set, and nothing more is recorded or
    forwarded. *)
Lemma handle_stopped ev s :
  stopRequested s = true ->
  stopRequested (fst (handle rt ev s)) = true
  /\ recordedFrames (fst (handle rt ev s)) = recordedFrames s
  /\ forwardedFrames (snd (handle rt ev s)) = [].
Proof.
  intros Hstop.
  assert (forwardedFrames (snd (handle rt ev s)) = []) as Hf.
  { rewrite handle_forwarded. destruct ev; try reflexivity.
    unfold onMicData. rewrite Hstop. destruct (ws s) as [[]|]; reflexivity. }
  split; [|split; [|exact Hf]].
  - rewrite handle_session.
    destruct (cleanup_keeps s) as (H & _ & _).
    destruct (cleanup_keeps (set_micInstance true s)) as (H' & _ & _).
    destruct ev as [[]| | | | | | | | |]; auto.
    + destruct (ws s); exact Hstop.
    + destruct (onMessage_keeps message s) as (-> & _ & _). exact Hstop.
    + unfold onMicData. rewrite Hstop. destruct (ws s) as [[]|]; exact Hstop.
  - rewrite handle_records, Hf, app_nil_r. reflexivity.
Qed.

(** C8.  An arriving frame is appended to [recordedFrames] and sent on the
    socket exactly when the socket is open and [stopRequested] is false, and is
    dropped without a trace otherwise; [cleanup] sets [stopRequested], after
    which no event records or forwards a frame; and over any sequence of
    events the frames recorded are the frames forwarded, in the same order. *)
Theorem frames_recorded_iff_forwarded (frame : list byte) (s : Session)
  (evs : list event) :
  onMicData frame s
  = (if bool_decide (ws s = Some OPEN /\ stopRequested s = false)
     then (set_recordedFrames (recordedFrames s ++ [frame]) s, [SendAudio frame])
     else (s, []))
  /\ stopRequested (fst (cleanup rt s)) = true
  /\ (let later := handleAll rt evs (fst (cleanup rt s)) in
      stopRequested (fst later) = true
      /\ recordedFrames (fst later) = recordedFrames s
      /\ forwardedFrames (snd later) = [])
  /\ recordedFrames (fst (handleAll rt evs s))
     = recordedFrames s ++ forwardedFrames (snd (handleAll rt evs s)).
Proof.
  split; [|split; [|split]].
  - unfold onMicData. destruct s as [m [[]|] [] fr tr]; reflexivity.
  - apply cleanup_session.
  - cbn zeta. destruct (cleanup_session rt s) as (Hstop & _ & Hfr & _).
    rewrite <- Hfr. revert Hstop. generalize (fst (cleanup rt s)). clear.
    induction evs as [|ev evs IH]; intros s Hstop; [auto|].
    rewrite handleAll_cons. cbn [fst snd].
    destruct (handle_stopped ev s Hstop) as (Hs & Hf & He).
    destruct (IH _ Hs) as (IH1 & IH2 & IH3).
    rewrite forwardedFrames_app, He, IH1, IH2, IH3, Hf. auto.
  - revert s. induction evs as [|ev evs IH]; intros s.
    + cbn. now rewrite app_nil_r.
    + rewrite handleAll_cons. cbn [fst snd].
      rewrite forwardedFrames_app, IH, handle_records, app_assoc. reflexivity.
Qed.

End Guards.

Section GuardExamples.
Import Js Cli Fixtures.

(** At the initial session, where nothing has been recorded. *)
Lemma no_frames_no_file_witness :
  saveWavFile initial = [Out NoAudio]
  /\ audioArtifacts (saveWavFile initial) = []
  /\ audioArtifacts (snd (cleanup runtime initial)) = [].
Proof. apply (no_frames_no_file runtime initial). reflexivity. Defined.

(** With the transcription key unset and the other key present. *)
Lemma missing_credentials_stop_before_connecting_witness :
  fst (main runtime None (Some "sk-live") [EvOpen NoFault]) = initial
  /\ connections (snd (main runtime None (Some "sk-live") [EvOpen NoFault])) = []
  /\ exitStatus (snd (main runtime None (Some "sk-live") [EvOpen NoFault])) = 0.
Proof.
  destruct (missing_credentials_stop_before_connecting runtime None
              (Some "sk-live") [EvOpen NoFault])
    as (H1 & H2 & _ & _ & _ & H3); [left; reflexivity|].
  exact (conj H1 (conj H2 H3)).
Defined.

(** C6, as stated, fails: without the transcription key the script prints its
    message and the process ends with status 0, not a non-zero one; a run with
    both keys that meets an uncaught exception is the one that ends with 1. *)
Lemma missing_credentials_exit_status_is_zero :
  exitStatus (snd (main runtime None (Some "sk-live") [])) = 0
  /\ snd (main runtime None (Some "sk-live") [])
     = [Out Launch; Out Starting; Out AudioWillBeSaved; Out NotesWillBeGenerated;
        Err MissingAssemblyKey]
  /\ exitStatus (snd (main runtime (Some "aai-live") (Some "sk-live") [EvUncaught]))
     = 1.
Proof. repeat split; reflexivity. Qed.

(** With a discriminant the handler does not know, ahead of a final turn. *)
Lemma unrecognised_message_is_dropped_witness :
  fst (onMessage runtime (Some (JObj [("type", JStr "Ping")])) recording)
  = recording
  /\ snd (onMessage runtime (Some (JObj [("type", JStr "Ping")])) recording) = []
  /\ fullTranscript
       (fst (handleAll runtime
               [EvMessage (Some (JObj [("type", JStr "Ping")]));
                deliver (Turn "call mom" true)] recording))
     = "buy milk call mom ".
Proof.
  destruct (unrecognised_message_is_dropped runtime
              (Some (JObj [("type", JStr "Ping")])) recording
              [deliver (Turn "call mom" true)])
    as (H1 & H2 & H3); [reflexivity|].
  split; [exact H1|]. split; [exact H2|]. rewrite H3. reflexivity.
Defined.

End GuardExamples.

(** * Properties of the HTTP server *)

Section ServerFacts.
Import Js Server Fixtures.
Context (pf : Platform).

Example hex_example : hex [Byte.x00; Byte.x0a; Byte.xff] = "000aff".
Proof. reflexivity. Qed.

Example remove_first_examples :
  remove_first "Bearer " "Bearer abc" = "abc"
  /\ remove_first "Bearer " "xBearer abBearer c" = "xabBearer c"
  /\ remove_first "Bearer " "abc" = "abc"
  /\ remove_first "Bearer " "" = "".
Proof. repeat split; reflexivity. Qed.

Lemma substring_all (t : string) : String.substring 0 (String.length t) t = t.
Proof. induction t as [|c t IH]; [reflexivity|]. cbn. now rewrite IH. Qed.

Lemma prefix_append (pat t : string) : String.prefix pat (pat +:+ t) = true.
Proof.
  induction pat as [|c pat IH]; [now destruct t|].
  change (String c pat +:+ t) with (String c (pat +:+ t)). cbn [String.prefix].
  destruct (ascii_dec c c) as [_|Hne]; [exact IH | now elim Hne].
Qed.

Lemma substring_append (pat t : string) :
  String.substring (String.length pat)
    (String.length (pat +:+ t) - String.length pat) (pat +:+ t) = t.
Proof.
  induction pat as [|c pat IH].
  - change ("" +:+ t) with t. cbn [String.length]. rewrite Nat.sub_0_r.
    apply substring_all.
  - change (String c pat +:+ t) with (String c (pat +:+ t)). exact IH.
Qed.

(** Removing a pattern that the string starts with leaves the rest. *)
Lemma remove_first_prefix (pat t : string) : remove_first pat (pat +:+ t) = t.
Proof.
  assert (forall s, remove_first pat s
                    = if String.prefix pat s
                      then String.substring (String.length pat)
                             (String.length s - String.length pat) s
                      else match s with
                           | EmptyString => EmptyString
                           | String c rest => String c (remove_first pat rest)
                           end) as Hunfold by (intros []; reflexivity).
  rewrite Hunfold, prefix_append. apply substring_append.
Qed.

(** The header [Bearer <token>] yields the token. *)
Lemma bearer_token (token : string) :
  remove_first "Bearer " ("Bearer " +:+ token) = token.
Proof. apply remove_first_prefix. Qed.

Lemma truthy_string (t : string) : t <> "" -> truthy (Some (JStr t)) = true.
Proof. intros H. cbn. now apply negb_true_iff, String.eqb_neq. Qed.

Lemma find_snoc {A} (f : A -> bool) (l : list A) (x : A) :
  List.find f l = None ->
  List.find f (l ++ [x]) = if f x then Some x else None.
Proof.
  induction l as [|y l IH]; cbn; [reflexivity|].
  destruct (f y); [discriminate | exact IH].
Qed.

Lemma own_credentials u p :
  own [("username", JStr u); ("password", JStr p)] "username" = Some (JStr u)
  /\ own [("username", JStr u); ("password", JStr p)] "password" = Some (JStr p).
Proof. split; reflexivity. Qed.

(** Registration of a new name, with both fields present. *)
Lemma register_created (en : Entropy) (db : DB) (u p : string) auth :
  u <> "" -> p <> "" ->
  findUser db (Some (JStr u)) = None ->
  handleRequest pf en (mkRequest "POST" "/register" auth (Some (credentials u p))) db
  = mkOutcome
      (mkDB (db_users db ++ [mkUser (randomUUID en) (JStr u) (sha256hex pf p)])
         (db_notes db) (db_tokens db))
      true 201 (Registered (randomUUID en) (JStr u)).
Proof.
  intros Hu Hp Hnew. cbn [handleRequest method url String.eqb Ascii.eqb Bool.eqb andb].
  unfold register, credentials. cbn [body prop get].
  destruct (own_credentials u p) as (-> & ->).
  rewrite (truthy_string u Hu), (truthy_string p Hp), Hnew. reflexivity.
Qed.

(** Registration of a name that is taken. *)
Lemma register_conflict (en : Entropy) (db : DB) (u p : string) auth existing :
  u <> "" -> p <> "" ->
  findUser db (Some (JStr u)) = Some existing ->
  handleRequest pf en (mkRequest "POST" "/register" auth (Some (credentials u p))) db
  = mkOutcome db false 409 (Error "user exists").
Proof.
  intros Hu Hp Hold. cbn [handleRequest method url String.eqb Ascii.eqb Bool.eqb andb].
  unfold register, credentials. cbn [body prop get].
  destruct (own_credentials u p) as (-> & ->).
  rewrite (truthy_string u Hu), (truthy_string p Hp), Hold. reflexivity.
Qed.

(** Registration without one of the two fields. *)
Lemma register_missing_field (en : Entropy) (db : DB) (fields : list (string * json)) auth :
  truthy (own fields "username") = false \/ truthy (own fields "password") = false ->
  handleRequest pf en (mkRequest "POST" "/register" auth (Some (JObj fields))) db
  = mkOutcome db false 400 (Error "username and password required").
Proof.
  intros H. cbn [handleRequest method url String.eqb Ascii.eqb Bool.eqb andb].
  unfold register. cbn [body prop get].
  destruct H as [-> | ->]; cbn [negb orb]; rewrite ?orb_true_r; reflexivity.
Qed.

(** Login with the password the user registered with. *)
Lemma login_token (en : Entropy) (db : DB) (u p : string) auth user :
  findUser db (Some (JStr u)) = Some user ->
  user_passwordHash user = sha256hex pf p ->
  handleRequest pf en (mkRequest "POST" "/login" auth (Some (credentials u p))) db
  = mkOutcome
      (mkDB (db_users db) (db_notes db)
         (<[hex (randomBytes16 en) := user_id user]> (db_tokens db)))
      true 200 (Token (hex (randomBytes16 en))).
Proof.
  intros Hfound Hhash.
  cbn [handleRequest method url String.eqb Ascii.eqb Bool.eqb andb].
  unfold login, credentials. cbn [body prop get].
  destruct (own_credentials u p) as (-> & ->).
  rewrite Hfound. cbn [hashPassword]. rewrite Hhash, String.eqb_refl. reflexivity.
Qed.

(** A token stored by a login authenticates its user. *)
Lemma requireAuth_token (db : DB) (token id : string) m u b :
  db_tokens db !! token = Some id -> id <> "" ->
  requireAuth db (mkRequest m u (Some ("Bearer " +:+ token)) b) = Some (UserId id).
Proof.
  intros Hown Hid. unfold requireAuth.
  change (default "" (authorization (mkRequest m u (Some ("Bearer " +:+ token)) b)))
    with ("Bearer " +:+ token).
  rewrite bearer_token. unfold tokenLookup. rewrite Hown. cbn [falsy].
  apply String.eqb_neq in Hid. now rewrite Hid.
Qed.

(** A request without the header is refused unless the empty token is stored. *)
Lemma requireAuth_no_header (db : DB) m u b :
  db_tokens db !! "" = None ->
  requireAuth db (mkRequest m u None b) = None.
Proof. intros H. unfold requireAuth, tokenLookup. cbn. now rewrite H. Qed.

(** Creating a note with a valid token and a transcript. *)
Lemma createNote_created (en : Entropy) (db : DB) (userId : userRef) (t : string) req :
  method req = "POST" -> url req = "/notes" ->
  requireAuth db req = Some userId ->
  body req = Some (JObj [("transcript", JStr t)]) ->
  t <> "" ->
  handleRequest pf en req db
  = let n := mkNote (randomUUID en) userId (JStr t) ("Notes for: " +:+ t) (now en) in
    mkOutcome (mkDB (db_users db) (db_notes db ++ [n]) (db_tokens db)) true 201 (Note n).
Proof.
  intros Hm Hu Hauth Hbody Ht. unfold handleRequest. rewrite Hm, Hu.
  cbn [String.eqb Ascii.eqb Bool.eqb andb]. unfold createNote.
  rewrite Hauth, Hbody. cbn [prop own String.eqb Ascii.eqb Bool.eqb].
  rewrite (truthy_string t Ht). reflexivity.
Qed.

(** Creating a note with a valid token and no transcript. *)
Lemma createNote_missing_field (en : Entropy) (db : DB) (userId : userRef) fields req :
  method req = "POST" -> url req = "/notes" ->
  requireAuth db req = Some userId ->
  body req = Some (JObj fields) ->
  truthy (own fields "transcript") = false ->
  handleRequest pf en req db = mkOutcome db false 400 (Error "transcript required").
Proof.
  intros Hm Hu Hauth Hbody Ht. unfold handleRequest. rewrite Hm, Hu.
  cbn [String.eqb Ascii.eqb Bool.eqb andb]. unfold createNote.
  rewrite Hauth, Hbody. cbn [prop]. rewrite Ht. reflexivity.
Qed.

(** A notes request that [requireAuth] refuses. *)
Lemma notes_unauthorized (en : Entropy) (db : DB) req :
  (method req = "POST" \/ method req = "GET") -> url req = "/notes" ->
  requireAuth db req = None ->
  handleRequest pf en req db = mkOutcome db false 401 (Error "Unauthorized").
Proof.
  intros Hm Hu Hauth. unfold handleRequest. rewrite Hu.
  destruct Hm as [-> | ->]; cbn [String.eqb Ascii.eqb Bool.eqb andb];
    unfold createNote, listNotes; rewrite Hauth; reflexivity.
Qed.

End ServerFacts.

Section Http.
Import Js Server Fixtures.
Context (pf : Platform).

(** X1.  The scenario of the interface, for string fields: registering a new
    name answers 201 with the id and the name; registering the name again
    answers 409; logging in with the registered password answers 200 with a
    token; and [POST /notes] with that token as bearer and the transcript "x"
    answers 201 with a note of that user whose notes are "Notes for: x". *)
Theorem register_login_note (en1 en2 en3 en4 : Entropy) (db : DB) (u p p' : string) :
  u <> "" -> p <> "" -> p' <> "" -> randomUUID en1 <> "" ->
  findUser db (Some (JStr u)) = None ->
  let r1 := handleRequest pf en1
              (mkRequest "POST" "/register" None (Some (credentials u p))) db in
  let r2 := handleRequest pf en2
              (mkRequest "POST" "/register" None (Some (credentials u p')))
              (db_after r1) in
  let r3 := handleRequest pf en3
              (mkRequest "POST" "/login" None (Some (credentials u p)))
              (db_after r2) in
  let token := hex (randomBytes16 en3) in
  let r4 := handleRequest pf en4
              (mkRequest "POST" "/notes" (Some ("Bearer " +:+ token))
                 (Some (JObj [("transcript", JStr "x")])))
              (db_after r3) in
  (status r1 = 201 /\ sent r1 = Registered (randomUUID en1) (JStr u))
  /\ status r2 = 409
  /\ (status r3 = 200 /\ sent r3 = Token token)
  /\ (status r4 = 201
      /\ exists n, sent r4 = Note n
                   /\ note_notes n = "Notes for: x"
                   /\ note_userId n = UserId (randomUUID en1)).
Proof.
  intros Hu Hp Hp' Hid Hnew r1 r2 r3 token r4.
  set (user1 := mkUser (randomUUID en1) (JStr u) (sha256hex pf p)).
  assert (r1 = mkOutcome (mkDB (db_users db ++ [user1]) (db_notes db) (db_tokens db))
                 true 201 (Registered (randomUUID en1) (JStr u))) as E1
    by (apply register_created; assumption).
  assert (findUser (db_after r1) (Some (JStr u)) = Some user1) as Hfound.
  { rewrite E1. unfold findUser in *. cbn [db_after db_users].
    rewrite (find_snoc _ _ _ Hnew). cbn [user1 user_username strict_eq].
    now rewrite String.eqb_refl. }
  assert (r2 = mkOutcome (db_after r1) false 409 (Error "user exists")) as E2
    by (eapply register_conflict; eassumption).
  assert (r3 = mkOutcome
                 (mkDB (db_users (db_after r1)) (db_notes (db_after r1))
                    (<[token := randomUUID en1]> (db_tokens (db_after r1))))
                 true 200 (Token token)) as E3.
  { subst r3. rewrite E2. cbn [db_after].
    apply (login_token pf en3 (db_after r1) u p None user1 Hfound). reflexivity. }
  assert (r4 = let n := mkNote (randomUUID en4) (UserId (randomUUID en1)) (JStr "x")
                          "Notes for: x" (now en4) in
               mkOutcome (mkDB (db_users (db_after r3)) (db_notes (db_after r3) ++ [n])
                            (db_tokens (db_after r3))) true 201 (Note n)) as E4.
  { apply (createNote_created pf en4 (db_after r3) (UserId (randomUUID en1)) "x");
      try reflexivity; [|discriminate].
    apply requireAuth_token; [|exact Hid].
    rewrite E3. cbn [db_after db_tokens]. apply lookup_insert_eq. }
  rewrite E1, E2, E3, E4. cbn.
  repeat split. eexists. repeat split.
Qed.

(** X2.  A registration whose body lacks the username or the password
    answers 400; a note creation with an accepted token whose body lacks the
    transcript answers 400; and a notes request without the Authorization
    header answers 401 (no login stores the empty token).  None of them
    changes or saves the database. *)
Theorem missing_field_or_header_is_refused (en : Entropy) (db : DB) :
  (forall auth fields,
      truthy (own fields "username") = false
      \/ truthy (own fields "password") = false ->
      handleRequest pf en
        (mkRequest "POST" "/register" auth (Some (JObj fields))) db
      = mkOutcome db false 400 (Error "username and password required"))
  /\ (forall req userId fields,
         method req = "POST" -> url req = "/notes" ->
         requireAuth db req = Some userId ->
         body req = Some (JObj fields) ->
         truthy (own fields "transcript") = false ->
         handleRequest pf en req db
         = mkOutcome db false 400 (Error "transcript required"))
  /\ (forall m b,
         m = "POST" \/ m = "GET" ->
         db_tokens db !! "" = None ->
         handleRequest pf en (mkRequest m "/notes" None b) db
         = mkOutcome db false 401 (Error "Unauthorized")).
Proof.
  split; [|split].
  - intros auth fields H. now apply register_missing_field.
  - intros req userId fields Hm Hu Hauth Hbody Ht.
    now apply (createNote_missing_field pf en db userId fields).
  - intros m b Hm Hnone. apply notes_unauthorized; [exact Hm | reflexivity |].
    now apply requireAuth_no_header.
Qed.

(** A name inherited from [Object.prototype] is accepted where a token is
    expected, whatever the database holds otherwise. *)
Lemma inherited_name_authenticates (db : DB) (name : string) m u b :
  In name objectPrototype ->
  db_tokens db !! name = None ->
  requireAuth db (mkRequest m u (Some ("Bearer " +:+ name)) b)
  = Some (Inherited name).
Proof.
  intros Hin Hnone. unfold requireAuth.
  change (default "" (authorization (mkRequest m u (Some ("Bearer " +:+ name)) b)))
    with ("Bearer " +:+ name).
  rewrite bearer_token. unfold tokenLookup. rewrite Hnone.
  replace (existsb (String.eqb name) objectPrototype) with true; [reflexivity|].
  symmetry. apply existsb_exists. exists name. split; [exact Hin|].
  apply String.eqb_refl.
Qed.

(** C9 (the code at the failing input).  On the empty database, where no user
    exists and no token was ever issued, a notes request that presents
    [Bearer constructor] is not answered 401: the listing is answered 200 and
    the creation 201, on behalf of a member of [Object.prototype]; the same
    requests without the header are answered 401. *)
Theorem bearer_constructor_is_not_refused :
  status (handleRequest platform entropy
            (mkRequest "GET" "/notes" (Some "Bearer constructor") None) emptyDB)
  = 200
  /\ status (handleRequest platform entropy
               (mkRequest "POST" "/notes" (Some "Bearer constructor")
                  (Some (JObj [("transcript", JStr "x")]))) emptyDB)
     = 201
  /\ status (handleRequest platform entropy
               (mkRequest "GET" "/notes" None None) emptyDB)
     = 401
  /\ status (handleRequest platform entropy
               (mkRequest "POST" "/notes" None
                  (Some (JObj [("transcript", JStr "x")]))) emptyDB)
     = 401.
Proof. repeat split; reflexivity. Qed.



End Http.

Section HttpExamples.
Import Js Server Fixtures.

(** On the empty database, with the name "a" and the password "p". *)
Lemma register_login_note_witness :
  status (handleRequest platform entropy
            (mkRequest "POST" "/register" None (Some (credentials "a" "p")))
            emptyDB) = 201
  /\ sent (handleRequest platform entropy
             (mkRequest "POST" "/register" None (Some (credentials "a" "p")))
             emptyDB)
     = Registered "3f2b0c9e-0000-4000-8000-000000000001" (JStr "a").
Proof.
  destruct (register_login_note platform entropy entropy entropy entropy emptyDB
              "a" "p" "p") as (H & _);
    [discriminate | discriminate | discriminate | discriminate | reflexivity |].
  exact H.
Defined.

End HttpExamples.

(** * Further properties of the WAV writer *)

Section WavBounds.
Import Wav Cli.

Lemma writeUInt32LE_some buf v offset buf' :
  writeUInt32LE buf v offset = Some buf' -> 0 <= v <= 4294967295.
Proof.
  unfold writeUInt32LE. destruct (0 <=? v) eqn:A; [|discriminate].
  destruct (v <=? 4294967295) eqn:B; [|discriminate].
  intros _. apply Z.leb_le in A, B. lia.
Qed.

Lemma writeUInt16LE_some buf v offset buf' :
  writeUInt16LE buf v offset = Some buf' -> 0 <= v <= 65535.
Proof.
  unfold writeUInt16LE. destruct (0 <=? v) eqn:A; [|discriminate].
  destruct (v <=? 65535) eqn:B; [|discriminate].
  intros _. apply Z.leb_le in A, B. lia.
Qed.

Lemma fits_spec R C L :
  fits R C L = true
  <-> 0 <= L /\ 36 + L <= 4294967295 /\ 0 <= R <= 4294967295
      /\ 0 <= C /\ C * 2 <= 65535 /\ R * C * 2 <= 4294967295.
Proof.
  unfold fits. rewrite !andb_true_iff, !Z.leb_le. tauto.
Qed.

(** A header is returned only for arguments that fit. *)
Lemma createWavHeader_some_fits R C L header :
  createWavHeader R C L = Some header -> fits R C L = true.
Proof.
  unfold createWavHeader. cbv zeta.
  repeat match goal with
         | |- context [writeUInt32LE ?b ?v ?o] =>
             let E := fresh "E" in
             destruct (writeUInt32LE b v o) eqn:E;
             [apply writeUInt32LE_some in E | discriminate]
         | |- context [writeUInt16LE ?b ?v ?o] =>
             let E := fresh "E" in
             destruct (writeUInt16LE b v o) eqn:E;
             [apply writeUInt16LE_some in E | discriminate]
         end.
  intros _. apply fits_spec. lia.
Qed.

(** X3.  [createWavHeader] returns a header exactly when every field fits its
    width: the data length is between 0 and [2^32 - 37], the sample rate
    between 0 and [2^32 - 1], the channel count between 0 and 32767 and the
    byte rate at most [2^32 - 1]; the header is then the canonical 44-byte
    layout, and for all other arguments a write throws and there is no
    header. *)
Theorem createWavHeader_defined_iff_fits (R C L : Z) :
  createWavHeader R C L
  = (if fits R C L
     then Some (layout (le_split 4 (36 + L)) (le_split 2 C) (le_split 4 R)
                  (le_split 4 (R * C * 2)) (le_split 2 (C * 2)) (le_split 4 L))
     else None)
  /\ (fits R C L = true
      <-> 0 <= L <= 4294967259 /\ 0 <= R <= 4294967295 /\ 0 <= C <= 32767
          /\ R * C * 2 <= 4294967295).
Proof.
  split.
  - destruct (fits R C L) eqn:F.
    + apply fits_spec in F. apply createWavHeader_layout; tauto.
    + destruct (createWavHeader R C L) as [header|] eqn:E; [|reflexivity].
      apply createWavHeader_some_fits in E. congruence.
  - rewrite fits_spec. lia.
Qed.

(** The file of a recording that fits is read back as the frames. *)
Lemma decodeWav_layout (payload : list byte) :
  36 + Z.of_nat (length payload) <= 4294967295 ->
  decodeWav
    (layout (le_split 4 (36 + Z.of_nat (length payload))) (le_split 2 CHANNELS)
       (le_split 4 SAMPLE_RATE) (le_split 4 (SAMPLE_RATE * CHANNELS * 2))
       (le_split 2 (CHANNELS * 2)) (le_split 4 (Z.of_nat (length payload)))
     ++ payload)
  = Some payload.
Proof.
  intros Hfit.
  destruct (layout_read (le_split 4 (36 + Z.of_nat (length payload)))
              (le_split 2 CHANNELS) (le_split 4 SAMPLE_RATE)
              (le_split 4 (SAMPLE_RATE * CHANNELS * 2))
              (le_split 2 (CHANNELS * 2))
              (le_split 4 (Z.of_nat (length payload))) payload)
    as (Hlen & Hskip & T0 & T8 & T12 & T36 & _ & _ & _ & _ & _ & _ & _ & _ & F40);
    try apply length_le_split.
  unfold decodeWav. rewrite T0, T8, T12, T36, F40, Hskip.
  rewrite u32_round_trip by lia. rewrite length_app, Hlen, Z.eqb_refl.
  replace (44 <=? 44 + length payload)%nat with true
    by (symmetry; apply Nat.leb_le; lia).
  reflexivity.
Qed.

(** X4.  [saveWavFile] writes one file, the header followed by all frames in
    order, exactly when at least one frame was recorded and the frames hold at
    most [2^32 - 37] bytes in all, and no file otherwise.  The test is on the
    number of frames, not of bytes: frames that are all empty give a file of
    the 44 header bytes alone. *)
Theorem saveWavFile_writes_iff (s : Session) :
  let payload := concat (recordedFrames s) in
  let L := Z.of_nat (length payload) in
  audioArtifacts (saveWavFile s)
  = (if negb (bool_decide (recordedFrames s = [])) && (L <=? 4294967259)
     then [layout (le_split 4 (36 + L)) (le_split 2 CHANNELS)
             (le_split 4 SAMPLE_RATE) (le_split 4 (SAMPLE_RATE * CHANNELS * 2))
             (le_split 2 (CHANNELS * 2)) (le_split 4 L) ++ payload]
     else [])
  /\ (recordedFrames s <> [] -> payload = [] ->
      exists header, audioArtifacts (saveWavFile s) = [header]
                     /\ length header = 44%nat
                     /\ field header 40 4 = 0).
Proof.
  intros payload L.
  assert (audioArtifacts (saveWavFile s)
          = if negb (bool_decide (recordedFrames s = [])) && (L <=? 4294967259)
            then [layout (le_split 4 (36 + L)) (le_split 2 CHANNELS)
                    (le_split 4 SAMPLE_RATE)
                    (le_split 4 (SAMPLE_RATE * CHANNELS * 2))
                    (le_split 2 (CHANNELS * 2)) (le_split 4 L) ++ payload]
            else []) as Hall.
  { unfold saveWavFile. destruct (recordedFrames s) as [|f rest] eqn:Hf;
      [reflexivity|].
    rewrite bool_decide_eq_false_2 by discriminate. cbn [negb andb].
    fold payload. fold L.
    destruct (L <=? 4294967259) eqn:HL.
    - apply Z.leb_le in HL.
      rewrite createWavHeader_layout by (unfold SAMPLE_RATE, CHANNELS, L; lia).
      reflexivity.
    - apply Z.leb_gt in HL.
      destruct (createWavHeader SAMPLE_RATE CHANNELS L) as [header|] eqn:E;
        [|reflexivity].
      apply createWavHeader_some_fits, fits_spec in E. lia. }
  split; [exact Hall|].
  intros Hne Hempty. rewrite Hall.
  rewrite bool_decide_eq_false_2 by exact Hne.
  subst L. rewrite Hempty. cbn [length Z.of_nat negb andb Z.leb Z.compare].
  eexists. split; [reflexivity|]. rewrite app_nil_r. split; reflexivity.
Qed.

End WavBounds.

(** * Further properties of the command line flow *)

Section Traces.
Import Js Cli.
Context (rt : Runtime).

Lemma handleAll_fst_cons ev rest s :
  fst (handleAll rt (ev :: rest) s) = fst (handleAll rt rest (fst (handle rt ev s))).
Proof. now rewrite handleAll_cons. Qed.

Lemma handleAll_snd_cons ev rest s :
  snd (handleAll rt (ev :: rest) s)
  = snd (handle rt ev s) ++ snd (handleAll rt rest (fst (handle rt ev s))).
Proof. now rewrite handleAll_cons. Qed.

(** Over a sequence of events the frames recorded are the frames forwarded. *)
Lemma handleAll_records evs s :
  recordedFrames (fst (handleAll rt evs s))
  = recordedFrames s ++ forwardedFrames (snd (handleAll rt evs s)).
Proof.
  revert s. induction evs as [|ev evs IH]; intros s.
  - cbn. now rewrite app_nil_r.
  - rewrite handleAll_fst_cons, handleAll_snd_cons, forwardedFrames_app, IH,
      handle_records, app_assoc.
    reflexivity.
Qed.

(** X5.  What was sent is what is saved: when a session that starts with no
    frame recorded has forwarded at least one frame to the transcription
    socket and the frames fit a WAV file, the [cleanup] that follows writes
    one file, and that file decodes to exactly the forwarded frames,
    concatenated in the order they were sent. *)
Theorem wav_holds_forwarded_frames (evs : list event) (s : Session) :
  let sent := forwardedFrames (snd (handleAll rt evs s)) in
  recordedFrames s = [] ->
  sent <> [] ->
  36 + Z.of_nat (length (concat sent)) <= 4294967295 ->
  exists file,
    audioArtifacts (snd (cleanup rt (fst (handleAll rt evs s)))) = [file]
    /\ Wav.decodeWav file = Some (concat sent).
Proof.
  intros sent Hstart Hsent Hfit.
  assert (recordedFrames (fst (handleAll rt evs s)) = sent) as Hrec
    by (rewrite handleAll_records, Hstart; reflexivity).
  destruct (cleanup_observed rt (fst (handleAll rt evs s))) as (_ & -> & _ & _).
  destruct (saveWavFile_in_range (fst (handleAll rt evs s))) as (header & Hhdr & ->);
    rewrite ?Hrec; try assumption.
  rewrite Hrec in Hhdr.
  rewrite createWavHeader_layout in Hhdr by (unfold SAMPLE_RATE, CHANNELS; lia).
  injection Hhdr as <-.
  eexists. split; [reflexivity|]. now apply decodeWav_layout.
Qed.









End Traces.

(** Observations that ignore the console, the chat service and the files read
    every handler through the microphone, the socket and the exits alone. *)
Section Projections.
Import Js Cli.
Context (rt : Runtime) {B : Type} (f : effect -> option B).
Hypothesis f_out : forall l, f (Out l) = None.
Hypothesis f_err : forall l, f (Err l) = None.
Hypothesis f_request : forall t, f (ChatRequest t) = None.
Hypothesis f_notes : forall n, f (WriteNotes n) = None.
Hypothesis f_wav : forall w, f (WriteWav w) = None.

Lemma omap_cons_effect e (l : list effect) :
  omap f (e :: l) = match f e with Some b => b :: omap f l | None => omap f l end.
Proof. reflexivity. Qed.

Lemma project_notesIfTranscript s : omap f (notesIfTranscript rt s) = [].
Proof.
  unfold notesIfTranscript, generateNotesFromTranscript.
  destruct (blank (fullTranscript s)); cbn [negb]; [reflexivity|].
  rewrite !omap_cons_effect, f_out, f_request.
  destruct (chatCompletion rt (fullTranscript s));
    rewrite !omap_cons_effect, ?f_notes, ?f_out, ?f_err; reflexivity.
Qed.

Lemma project_saveWavFile s : omap f (saveWavFile s) = [].
Proof.
  unfold saveWavFile. destruct (recordedFrames s);
    [now rewrite omap_cons_effect, f_out|].
  destruct (Wav.createWavHeader _ _ _);
    rewrite !omap_cons_effect, ?f_wav, ?f_out, ?f_err; reflexivity.
Qed.

Lemma project_cleanup s : omap f (snd (cleanup rt s)) = omap f (closing s).
Proof.
  rewrite cleanup_effects, !omap_app, project_notesIfTranscript,
    project_saveWavFile.
  reflexivity.
Qed.

Lemma project_onMessage message s : omap f (snd (onMessage rt message s)) = [].
Proof.
  unfold onMessage, caught.
  destruct message as [data|]; [|cbn [snd]; now rewrite !omap_cons_effect, !f_err].
  destruct (prop data "type") as [msgType|];
    [|cbn [snd]; now rewrite !omap_cons_effect, !f_err].
  destruct (is_string msgType "Begin").
  { destruct (toISOString rt _); cbn [snd];
      now rewrite !omap_cons_effect, ?f_err, ?f_out. }
  destruct (is_string msgType "Turn").
  { destruct (truthy (get data "turn_is_formatted")); cbn [snd];
      now rewrite !omap_cons_effect, ?f_out. }
  destruct (is_string msgType "Termination"); cbn [snd]; [|reflexivity].
  now rewrite omap_cons_effect, f_out, project_notesIfTranscript.
Qed.

(** Every handler, seen through [f]. *)
Lemma project_handle ev s :
  omap f (snd (handle rt ev s))
  = match ev with
    | EvOpen NoFault => omap f [MicStart]
    | EvOpen CreateFails => omap f (closing s)
    | EvOpen StartFails => omap f (closing (set_micInstance true s))
    | EvReadyState _ | EvMessage _ => []
    | EvMicData frame => omap f (snd (onMicData frame s))
    | EvError | EvClose | EvMicError => omap f (closing s)
    | EvSIGINT | EvSIGTERM => omap f (closing s) ++ omap f [ExitAfterGrace 0]
    | EvUncaught => omap f (closing s) ++ omap f [ExitAfterGrace 1]
    end.
Proof.
  destruct ev as [[]| | | | | | | | |]; cbn [handle].
  - rewrite onOpen_effects, !omap_cons_effect, !f_out. reflexivity.
  - rewrite onOpen_effects, !omap_cons_effect, !f_out, f_err. apply project_cleanup.
  - rewrite onOpen_effects, !omap_cons_effect, !f_out, f_err. apply project_cleanup.
  - reflexivity.
  - apply project_onMessage.
  - rewrite onError_effects, omap_cons_effect, f_err. apply project_cleanup.
  - rewrite onClose_effects, omap_cons_effect, f_out, omap_app,
      project_notesIfTranscript.
    apply project_cleanup.
  - reflexivity.
  - rewrite onMicError_effects, omap_cons_effect, f_err. apply project_cleanup.
  - rewrite onSIGINT_effects, omap_cons_effect, f_out, omap_app, project_cleanup.
    reflexivity.
  - rewrite onSIGTERM_effects, omap_cons_effect, f_out, omap_app, project_cleanup.
    reflexivity.
  - rewrite onUncaughtException_effects, omap_cons_effect, f_err, omap_app,
      project_cleanup.
    reflexivity.
Qed.

End Projections.

Section Socket.
Import Js Cli.
Context (rt : Runtime).

(** The message handler leaves the microphone and the socket variables alone. *)
Lemma onMessage_session_ws message s :
  ws (fst (onMessage rt message s)) = ws s
  /\ micInstance (fst (onMessage rt message s)) = micInstance s.
Proof.
  unfold onMessage, caught.
  destruct message as [data|]; [|split; reflexivity].
  destruct (prop data "type") as [msgType|]; [|split; reflexivity].
  destruct (is_string msgType "Begin").
  { destruct (toISOString rt _); split; reflexivity. }
  destruct (is_string msgType "Turn").
  { destruct (truthy (get data "turn_is_formatted")); split; reflexivity. }
  destruct (is_string msgType "Termination"); split; reflexivity.
Qed.

(** The variable [ws] after each handler. *)
Lemma handle_ws ev s :
  ws (fst (handle rt ev s))
  = if runsCleanup ev
    then match ws s with
         | Some OPEN | Some CONNECTING => None
         | w => w
         end
    else match ev with
         | EvReadyState rs => match ws s with Some _ => Some rs | None => None end
         | _ => ws s
         end.
Proof.
  rewrite handle_session.
  destruct (cleanup_session rt s) as (_ & _ & _ & _ & Hw).
  destruct (cleanup_session rt (set_micInstance true s)) as (_ & _ & _ & _ & Hw').
  cbn [ws set_micInstance] in Hw'.
  destruct ev as [[]| | | | | | | | |]; cbn [runsCleanup]; auto.
  - destruct (ws s) eqn:E; [reflexivity | exact E].
  - apply onMessage_session_ws.
  - unfold onMicData. destruct (ws s) as [[]|] eqn:E; cbn [fst]; auto.
    destruct (negb (stopRequested s)); cbn; auto.
Qed.

Lemma socketEffects_app a b :
  socketEffects (a ++ b) = socketEffects a ++ socketEffects b.
Proof. apply omap_app. Qed.

(** What each handler does to the socket. *)
Lemma handle_socketEffects ev s :
  socketEffects (snd (handle rt ev s))
  = if runsCleanup ev
    then match ws s with
         | Some OPEN => [SendTerminate; CloseSocket]
         | Some CONNECTING => [CloseSocket]
         | _ => []
         end
    else match ev with
         | EvMicData frame => map SendAudio (forwardedFrames (snd (handle rt ev s)))
         | _ => []
         end.
Proof.
  unfold socketEffects. rewrite project_handle by reflexivity.
  assert (forall m, omap (fun e => if touchesSocket e then Some e else None)
                      (closing (set_micInstance m s))
                    = match ws s with
                      | Some OPEN => [SendTerminate; CloseSocket]
                      | Some CONNECTING => [CloseSocket]
                      | _ => []
                      end) as Hc
    by (intros m; unfold closing; cbn [micInstance ws set_micInstance];
        destruct m; destruct (ws s) as [[]|]; reflexivity).
  assert (set_micInstance (micInstance s) s = s) as Hs by (now destruct s).
  pose proof (Hc (micInstance s)) as Hc0. rewrite Hs in Hc0.
  destruct ev as [[]| | | | | | | | |]; cbn [runsCleanup];
    rewrite ?Hc, ?Hc0, ?app_nil_r; try reflexivity.
  cbn [handle]. unfold onMicData. destruct (ws s) as [[]|]; try reflexivity.
  destruct (negb (stopRequested s)); reflexivity.
Qed.

(** Once [ws] is [null] it stays [null] and the socket is left alone. *)
Lemma handleAll_released evs s :
  ws s = None ->
  ws (fst (handleAll rt evs s)) = None
  /\ socketEffects (snd (handleAll rt evs s)) = [].
Proof.
  revert s. induction evs as [|ev evs IH]; intros s Hnull; [auto|].
  rewrite handleAll_fst_cons, handleAll_snd_cons, socketEffects_app.
  assert (ws (fst (handle rt ev s)) = None) as Hnext.
  { rewrite handle_ws, Hnull. destruct ev as [[]| | | | | | | | |]; reflexivity. }
  destruct (IH _ Hnext) as (-> & ->). split; [reflexivity|].
  rewrite handle_socketEffects, handle_forwarded, Hnull.
  destruct ev as [[]| | | | | | | | |]; try reflexivity.
  unfold onMicData. rewrite Hnull. reflexivity.
Qed.

Lemma forwardedFrames_socketEffects trace :
  forwardedFrames trace = forwardedFrames (socketEffects trace).
Proof.
  induction trace as [|e trace IH]; [reflexivity|].
  change (socketEffects (e :: trace))
    with (match (if touchesSocket e then Some e else None) with
          | Some b => b :: socketEffects trace
          | None => socketEffects trace
          end).
  rewrite forwardedFrames_cons. destruct e; cbn [touchesSocket];
    rewrite ?forwardedFrames_cons; congruence.
Qed.

(** X7.  What the socket sees over any sequence of events: the audio frames,
    then at most one Terminate message, then at most one close, and nothing
    after the close; a Terminate is always followed by the close; and once
    the script has closed the socket its variable [ws] is [null]. *)
Theorem socket_protocol_order (evs : list event) (s : Session) :
  let trace := snd (handleAll rt evs s) in
  exists tail,
    socketEffects trace = map SendAudio (forwardedFrames trace) ++ tail
    /\ (tail = [] \/ tail = [CloseSocket] \/ tail = [SendTerminate; CloseSocket])
    /\ (tail <> [] -> ws (fst (handleAll rt evs s)) = None).
Proof.
  cbn zeta. revert s. induction evs as [|ev evs IH]; intros s.
  { exists []. split; [reflexivity|]. split; [auto|]. intros H. now elim H. }
  rewrite handleAll_fst_cons, handleAll_snd_cons, socketEffects_app,
    forwardedFrames_app.
  destruct (socketEffects (snd (handle rt ev s))) as [|e0 l0] eqn:Hse.
  - (* the handler leaves the socket alone *)
    assert (forwardedFrames (snd (handle rt ev s)) = []) as ->
      by (rewrite forwardedFrames_socketEffects, Hse; reflexivity).
    apply IH.
  - rewrite handle_socketEffects in Hse.
    destruct (runsCleanup ev) eqn:Hrc.
    + (* the handler closes the socket *)
      assert (ws (fst (handle rt ev s)) = None) as Hnull.
      { rewrite handle_ws, Hrc. destruct (ws s) as [[]|]; try reflexivity;
          discriminate Hse. }
      destruct (handleAll_released evs _ Hnull) as (Hw & Hrest).
      assert (forwardedFrames (snd (handle rt ev s)) = []) as ->.
      { rewrite handle_forwarded. destruct ev; try reflexivity. discriminate Hrc. }
      rewrite Hrest, (forwardedFrames_socketEffects (snd (handleAll _ _ _))), Hrest.
      exists (e0 :: l0). rewrite app_nil_r. split; [reflexivity|].
      split; [|intros _; exact Hw].
      destruct (ws s) as [[]|]; try discriminate Hse; injection Hse as <- <-; auto.
    + (* the handler forwards a frame *)
      destruct (IH (fst (handle rt ev s))) as (tail & Heq & Htail & Hnull).
      exists tail. rewrite Heq, map_app, <- app_assoc.
      destruct ev; try discriminate Hse. rewrite Hse. auto.
Qed.

(** X8.  Once the variable [ws] is [null] (no connection was opened, or a
    [cleanup] closed it), no later event sends a frame, sends Terminate or
    closes the socket, nothing more is recorded, and [ws] stays [null]. *)
Theorem released_socket_is_never_touched (evs : list event) (s : Session) :
  ws s = None ->
  ws (fst (handleAll rt evs s)) = None
  /\ socketEffects (snd (handleAll rt evs s)) = []
  /\ forwardedFrames (snd (handleAll rt evs s)) = []
  /\ recordedFrames (fst (handleAll rt evs s)) = recordedFrames s.
Proof.
  intros Hnull. destruct (handleAll_released evs s Hnull) as (Hw & Hse).
  assert (forwardedFrames (snd (handleAll rt evs s)) = []) as Hf
    by (rewrite forwardedFrames_socketEffects, Hse; reflexivity).
  rewrite handleAll_records, Hf, app_nil_r. auto.
Qed.

End Socket.

Section Lifecycle.
Import Js Cli.
Context (rt : Runtime).





Lemma cleanup_session_any (rt' : Runtime) s : fst (cleanup rt s) = fst (cleanup rt' s).
Proof. destruct s as [[] [[]|] st fr tr]; reflexivity. Qed.

(** X10.  The note generator has no hold on the rest of [cleanup]: whatever
    it answers, or if it fails, [cleanup] leaves the same session, writes the
    same audio file, stops the microphone and closes the socket in the same
    way; a failed generation only means that no notes file is written. *)
Theorem cleanup_is_best_effort (rt' : Runtime) (s : Session) :
  fst (cleanup rt s) = fst (cleanup rt' s)
  /\ audioArtifacts (snd (cleanup rt s)) = audioArtifacts (snd (cleanup rt' s))
  /\ socketEffects (snd (cleanup rt s)) = socketEffects (snd (cleanup rt' s))
  /\ micStops (snd (cleanup rt s)) = micStops (snd (cleanup rt' s))
  /\ (chatCompletion rt (fullTranscript s) = None ->
      notesArtifacts (snd (cleanup rt s)) = []
      /\ audioArtifacts (snd (cleanup rt s)) = audioArtifacts (saveWavFile s)).
Proof.
  split; [apply cleanup_session_any|].
  destruct (cleanup_observed rt s) as (Hn & -> & _ & _).
  destruct (cleanup_observed rt' s) as (_ & -> & _ & _).
  split; [reflexivity|].
  unfold socketEffects, micStops. rewrite !project_cleanup by reflexivity.
  split; [reflexivity|]. split; [reflexivity|].
  intros Hfail. split; [|reflexivity]. rewrite Hn.
  destruct (notesIfTranscript_observed rt s) as (_ & _ & _ & ->).
  rewrite Hfail. now destruct (blank (fullTranscript s)).
Qed.

Lemma is_string_exclusive v a b : a <> b -> is_string v a = true -> is_string v b = false.
Proof.
  destruct v as [[]|]; cbn; try discriminate.
  intros Hab Ha. apply String.eqb_eq in Ha. subst. now apply String.eqb_neq.
Qed.

(** The transcript after each handler. *)
Lemma handle_transcript ev s :
  fullTranscript (fst (handle rt ev s))
  = fullTranscript s +:+ (if appendsTurn ev then turnText rt ev +:+ " " else "").
Proof.
  rewrite handle_session.
  destruct (cleanup_session rt s) as (_ & _ & _ & Ht & _).
  destruct (cleanup_session rt (set_micInstance true s)) as (_ & _ & _ & Ht' & _).
  destruct ev as [[]| | message | | | | | | |]; cbn [appendsTurn];
    rewrite ?append_nil_r; auto.
  - destruct (ws s); reflexivity.
  - unfold onMessage, caught, turnText.
    destruct message as [data|]; [|now rewrite append_nil_r].
    change (get data "type")
      with (match prop data "type" with Some v => v | None => None end).
    destruct (prop data "type") as [msgType|] eqn:E;
      [|cbn [fst is_string andb]; now rewrite append_nil_r].
    destruct (is_string msgType "Begin") eqn:B.
    { rewrite (is_string_exclusive msgType "Begin" "Turn") by (discriminate || exact B).
      destruct (toISOString rt _); cbn; now rewrite append_nil_r. }
    destruct (is_string msgType "Turn"); cbn [andb].
    { destruct (truthy (get data "turn_is_formatted")); cbn [fst fullTranscript];
        [|now rewrite append_nil_r].
      cbn [set_fullTranscript fullTranscript]. reflexivity. }
    destruct (is_string msgType "Termination"); cbn; now rewrite append_nil_r.
  - unfold onMicData. destruct (ws s) as [[]|]; cbn; auto.
    destruct (negb (stopRequested s)); reflexivity.
Qed.

(** X11.  The transcript only grows, and only from Turn messages marked as
    formatted: over any sequence of events, whatever else arrives, the
    transcript afterwards is the transcript before followed by the text of
    each such message ([data.transcript || ""]) and one space, in arrival
    order; no other message, frame, error, close or signal changes it. *)
Theorem transcript_only_grows (evs : list event) (s : Session) :
  fullTranscript (fst (handleAll rt evs s))
  = fullTranscript s +:+ appendedText rt evs
  /\ (forallb (fun ev => negb (appendsTurn ev)) evs = true ->
      fullTranscript (fst (handleAll rt evs s)) = fullTranscript s).
Proof.
  assert (forall s, fullTranscript (fst (handleAll rt evs s))
                    = fullTranscript s +:+ appendedText rt evs) as H.
  { induction evs as [|ev evs' IH]; intros s0; [cbn; now rewrite append_nil_r|].
    rewrite handleAll_fst_cons, IH, handle_transcript. cbn [appendedText].
    now rewrite append_assoc. }
  split; [apply H|]. intros Hnone. rewrite H.
  replace (appendedText rt evs) with ""; [apply append_nil_r|].
  clear H. induction evs as [|ev evs' IH]; [reflexivity|].
  cbn in Hnone. apply andb_true_iff in Hnone as [Hev Hrest].
  cbn [appendedText]. apply negb_true_iff in Hev. rewrite Hev, <- IH by exact Hrest.
  reflexivity.
Qed.

End Lifecycle.

Section Startup.
Import Js Cli.
Context (rt : Runtime).

(** X12.  [run] opens the connection exactly when both keys are usable: each
    environment variable is set, is not the empty string and is not the
    placeholder text itself.  The connection then carries the transcription
    key as its Authorization header and [ws] holds the connecting socket; in
    every other case no connection is made, no handler is registered and the
    session is left as it was. *)
Theorem run_connects_iff_credentials (a o : option string) (s : Session) :
  let usable :=
    match a, o with
    | Some k, Some k' =>
        negb (String.eqb k "") && negb (String.eqb k ASSEMBLYAI_PLACEHOLDER)
        && negb (String.eqb k' "") && negb (String.eqb k' OPENAI_PLACEHOLDER)
    | _, _ => false
    end in
  connections (snd (run a o s))
  = (if usable then [default "" a] else [])
  /\ fst (run a o s) = (if usable then set_ws (Some CONNECTING) s else s)
  /\ (In InstallHandlers (snd (run a o s)) <-> usable = true)
  /\ credentialsMissing a o = negb usable.
Proof.
  cbn zeta. unfold run, credentialsMissing, envOr.
  destruct a as [k|], o as [k'|]; cbn [default from_option id].
  - destruct (String.eqb k "") eqn:Ek; cbn [negb andb].
    { rewrite String.eqb_refl. cbn. intuition discriminate. }
    destruct (String.eqb k ASSEMBLYAI_PLACEHOLDER) eqn:Ep; cbn [negb andb orb].
    { cbn. intuition discriminate. }
    destruct (String.eqb k' "") eqn:Ek'; cbn [negb andb].
    { rewrite String.eqb_refl. cbn. intuition discriminate. }
    destruct (String.eqb k' OPENAI_PLACEHOLDER) eqn:Ep'; cbn [negb andb orb].
    { cbn. intuition discriminate. }
    cbn. intuition.
  - destruct (String.eqb k "") eqn:Ek; rewrite ?String.eqb_refl, ?orb_true_r.
    + cbn. intuition discriminate.
    + destruct (String.eqb k ASSEMBLYAI_PLACEHOLDER); cbn; intuition discriminate.
  - rewrite String.eqb_refl. cbn. intuition discriminate.
  - rewrite String.eqb_refl. cbn. intuition discriminate.
Qed.

Lemma micStarts_as_omap trace :
  micStarts trace
  = length (omap (fun e => match e with MicStart => Some e | _ => None end) trace).
Proof.
  unfold micStarts. induction trace as [|e trace IH]; [reflexivity|].
  destruct e; cbn in *; congruence.
Qed.

(** X13.  When opening the microphone throws, the socket-open handler turns
    into a shutdown: the microphone is never started, [stopRequested] is set,
    the socket is sent Terminate and closed if it is open, and the microphone
    is stopped exactly when an instance had been assigned before the throw
    (or was already there); no frame is forwarded. *)
Theorem microphone_failure_shuts_down (fault : micFault) (s : Session) :
  fault <> NoFault ->
  let result := handle rt (EvOpen fault) s in
  micStarts (snd result) = 0%nat
  /\ stopRequested (fst result) = true
  /\ micInstance (fst result) = false
  /\ ws (fst result) = match ws s with
                       | Some OPEN | Some CONNECTING => None
                       | w => w
                       end
  /\ socketEffects (snd result)
     = match ws s with
       | Some OPEN => [SendTerminate; CloseSocket]
       | Some CONNECTING => [CloseSocket]
       | _ => []
       end
  /\ micStops (snd result)
     = (if micInstance s || match fault with StartFails => true | _ => false end
        then 1 else 0)%nat
  /\ recordedFrames (fst result) = recordedFrames s.
Proof.
  intros Hfault result. subst result.
  rewrite micStarts_as_omap. unfold micStops.
  rewrite !project_handle by reflexivity.
  rewrite handle_socketEffects, handle_ws, handle_session.
  destruct (cleanup_session rt s) as (H1 & H2 & H3 & _).
  destruct (cleanup_session rt (set_micInstance true s)) as (H1' & H2' & H3' & _).
  destruct fault; [contradiction| |]; cbn [runsCleanup].
  - repeat split; auto; unfold closing;
      destruct (micInstance s); destruct (ws s) as [[]|]; reflexivity.
  - repeat split; auto; unfold closing; cbn [micInstance set_micInstance ws];
      rewrite ?orb_true_r; destruct (ws s) as [[]|]; reflexivity.
Qed.

End Startup.

Section LifecycleExamples.
Import Js Cli Fixtures.

(** Two frames forwarded on an open socket, then the shutdown. *)
Lemma wav_holds_forwarded_frames_witness :
  exists file,
    audioArtifacts
      (snd (cleanup runtime
              (fst (handleAll runtime
                      [EvMicData [Byte.x01; Byte.x02]; EvMicData [Byte.x03]]
                      (mkSession true (Some OPEN) false [] ""))))) = [file]
    /\ Wav.decodeWav file = Some [Byte.x01; Byte.x02; Byte.x03].
Proof.
  apply (wav_holds_forwarded_frames runtime
           [EvMicData [Byte.x01; Byte.x02]; EvMicData [Byte.x03]]
           (mkSession true (Some OPEN) false [] ""));
    [reflexivity | discriminate | simpl; lia].
Defined.

(** After a [cleanup] on an open socket: a frame, a close and a signal. *)
Lemma released_socket_is_never_touched_witness :
  socketEffects
    (snd (handleAll runtime [EvMicData [Byte.x01]; EvClose; EvSIGINT]
            (fst (cleanup runtime recording)))) = [].
Proof.
  apply (released_socket_is_never_touched runtime
           [EvMicData [Byte.x01]; EvClose; EvSIGINT]
           (fst (cleanup runtime recording))).
  reflexivity.
Defined.

(** [micInstance.start()] throws on an open socket. *)
Lemma microphone_failure_shuts_down_witness :
  micStarts (snd (handle runtime (EvOpen StartFails)
                    (mkSession false (Some OPEN) false [] ""))) = 0%nat
  /\ stopRequested (fst (handle runtime (EvOpen StartFails)
                           (mkSession false (Some OPEN) false [] ""))) = true.
Proof.
  destruct (microphone_failure_shuts_down runtime StartFails
              (mkSession false (Some OPEN) false [] "")) as (H1 & H2 & _);
    [discriminate|].
  exact (conj H1 H2).
Defined.

End LifecycleExamples.

(** * Further properties of the HTTP server *)

Section Requests.
Import Js Server Fixtures.
Context (pf : Platform).

(** Every request either leaves the database as it is and does not save it, or
    appends one user, or stores one token for a stored user, or appends one
    note; the three changes are saved and answered 201, 200 and 201. *)
Lemma handleRequest_cases (en : Entropy) (req : request) (db : DB) :
  let out := handleRequest pf en req db in
  (db_after out = db /\ saved out = false
   /\ (status out = 200 \/ status out = 400 \/ status out = 401
       \/ status out = 404 \/ status out = 409 \/ status out = 500))
  \/ (exists name hash,
        findUser db (Some name) = None /\ truthy (Some name) = true
        /\ out = mkOutcome
                   (mkDB (db_users db ++ [mkUser (randomUUID en) name hash])
                      (db_notes db) (db_tokens db))
                   true 201 (Registered (randomUUID en) name))
  \/ (exists user,
        In user (db_users db)
        /\ out = mkOutcome
                   (mkDB (db_users db) (db_notes db)
                      (<[hex (randomBytes16 en) := user_id user]> (db_tokens db)))
                   true 200 (Token (hex (randomBytes16 en))))
  \/ (exists n,
        requireAuth db req = Some (note_userId n)
        /\ out = mkOutcome (mkDB (db_users db) (db_notes db ++ [n]) (db_tokens db))
                   true 201 (Note n)).
Proof.
  cbn zeta. unfold handleRequest.
  destruct (String.eqb (method req) "POST" && String.eqb (url req) "/register").
  { unfold register, serverError, send.
    destruct (body req) as [b|]; [|left; cbn; tauto].
    destruct (prop b "username") as [[name|]|]; try (left; cbn; tauto).
    destruct (negb (truthy (Some name)) || negb (truthy (get b "password"))) eqn:T;
      [left; cbn; tauto|].
    apply orb_false_iff in T as [T _]. apply negb_false_iff in T.
    destruct (findUser db (Some name)) eqn:F; [left; cbn; tauto|].
    destruct (hashPassword pf (get b "password")) as [h|]; [|left; cbn; tauto].
    right. left. exists name, h. auto. }
  destruct (String.eqb (method req) "POST" && String.eqb (url req) "/login").
  { unfold login, serverError, send.
    destruct (body req) as [b|]; [|left; cbn; tauto].
    destruct (prop b "username") as [username|]; [|left; cbn; tauto].
    destruct (findUser db username) as [user|] eqn:F; [|left; cbn; tauto].
    destruct (hashPassword pf (get b "password")) as [h|]; [|left; cbn; tauto].
    destruct (negb (String.eqb (user_passwordHash user) h)); [left; cbn; tauto|].
    right. right. left. exists user. split; [|reflexivity].
    unfold findUser in F. destruct username as [name|]; [|discriminate].
    apply find_some in F. tauto. }
  destruct (String.eqb (method req) "POST" && String.eqb (url req) "/notes").
  { unfold createNote, unauthorized, serverError, send.
    destruct (requireAuth db req) as [userId|] eqn:A; [|left; cbn; tauto].
    destruct (body req) as [b|]; [|left; cbn; tauto].
    destruct (prop b "transcript") as [transcript|]; [|left; cbn; tauto].
    destruct (negb (truthy transcript)); [left; cbn; tauto|].
    right. right. right. eexists. split; [|reflexivity]. reflexivity. }
  destruct (String.eqb (method req) "GET" && String.eqb (url req) "/notes").
  { unfold listNotes, unauthorized, send.
    destruct (requireAuth db req); left; cbn; tauto. }
  left. cbn. tauto.
Qed.


(** A request keeps every token but the one a login draws. *)
Lemma handleRequest_tokens (en : Entropy) (req : request) (db : DB) token :
  token <> hex (randomBytes16 en) ->
  db_tokens (db_after (handleRequest pf en req db)) !! token = db_tokens db !! token.
Proof.
  intros Hne.
  destruct (handleRequest_cases en req db)
    as [(-> & _) | [(name & h & _ & _ & ->) | [(u & _ & ->) | (n & _ & ->)]]];
    cbn [db_after db_tokens]; auto.
  now rewrite lookup_insert_ne.
Qed.

(** X15.  Nothing is ever deleted or replaced by a request: the users and the
    notes afterwards are those before with at most one appended at the end,
    and every token keeps its user, except that a login overwrites the token
    equal to the one it draws. *)
Theorem nothing_is_ever_deleted (en : Entropy) (req : request) (db : DB) :
  let db' := db_after (handleRequest pf en req db) in
  (exists added, db_users db' = db_users db ++ added /\ (length added <= 1)%nat)
  /\ (exists added, db_notes db' = db_notes db ++ added /\ (length added <= 1)%nat)
  /\ (forall token, token <> hex (randomBytes16 en) ->
                    db_tokens db' !! token = db_tokens db !! token)
  /\ (forall token, is_Some (db_tokens db !! token) ->
                    is_Some (db_tokens db' !! token)).
Proof.
  cbn zeta.
  assert (forall {A} (l : list A),
             exists added, l = l ++ added /\ (length added <= 1)%nat) as Hsame
    by (intros A l; exists []; rewrite app_nil_r; cbn; auto).
  assert (forall {A} (l : list A) x,
             exists added, l ++ [x] = l ++ added /\ (length added <= 1)%nat) as Hone
    by (intros A l x; exists [x]; cbn; auto).
  destruct (handleRequest_cases en req db)
    as [(-> & _) | [(name & h & _ & _ & ->) | [(u & _ & ->) | (n & _ & ->)]]];
    cbn [db_after db_users db_notes db_tokens];
    (split; [|split; [|split]]); auto.
  - intros token Hne. now rewrite lookup_insert_ne.
  - intros token Hsome.
    destruct (decide (hex (randomBytes16 en) = token)) as [<- | Hne].
    + rewrite lookup_insert_eq. eauto.
    + now rewrite lookup_insert_ne.
Qed.

Lemma distinctNames_snoc users u :
  distinctNames users ->
  Forall (fun v => strict_eq (user_username v) (user_username u) = false) users ->
  distinctNames (users ++ [u]).
Proof.
  induction users as [|v users IH]; cbn; [auto|].
  intros [Hv Hrest] Hall. apply Forall_cons in Hall as [Hvu Hall].
  split; [|auto]. apply Forall_app. split; [exact Hv|]. auto.
Qed.

Lemma findUser_none db name :
  findUser db (Some name) = None ->
  Forall (fun v => strict_eq (user_username v) name = false) (db_users db).
Proof.
  unfold findUser. intros Hnone. apply List.Forall_forall. intros v Hin.
  exact (find_none _ _ Hnone v Hin).
Qed.

Lemma handleRequest_distinct (en : Entropy) (req : request) (db : DB) :
  distinctNames (db_users db) ->
  distinctNames (db_users (db_after (handleRequest pf en req db))).
Proof.
  intros Hd.
  destruct (handleRequest_cases en req db)
    as [(-> & _) | [(name & h & Hnew & _ & ->) | [(u & _ & ->) | (n & _ & ->)]]];
    cbn [db_after db_users]; auto.
  apply distinctNames_snoc; [exact Hd|]. cbn [user_username].
  now apply findUser_none.
Qed.

(** X16.  User names stay unique: in every database the server reaches from
    the empty one, and from any database in which it already holds, no two
    stored users have strictly equal names, whatever requests arrive. *)
Theorem usernames_stay_distinct (requests : list (Entropy * request)) (db : DB) :
  distinctNames (db_users (serveAll pf requests emptyDB))
  /\ (distinctNames (db_users db) ->
      distinctNames (db_users (serveAll pf requests db))).
Proof.
  assert (forall db0, distinctNames (db_users db0) ->
                      distinctNames (db_users (serveAll pf requests db0))) as H.
  { induction requests as [|[en req] rest IH]; intros db0 Hd; [exact Hd|].
    cbn [serveAll]. apply IH. now apply handleRequest_distinct. }
  split; [apply H; exact I | apply H].
Qed.

(** A user reference that is an id comes from a stored token. *)
Lemma requireAuth_user db req id :
  requireAuth db req = Some (UserId id) ->
  exists token, db_tokens db !! token = Some id.
Proof.
  unfold requireAuth, tokenLookup.
  set (token := remove_first "Bearer " (default "" (authorization req))).
  destruct (db_tokens db !! token) as [id'|] eqn:E.
  - cbn [falsy]. destruct (String.eqb id' ""); [discriminate|].
    intros [= <-]. eauto.
  - destruct (existsb (String.eqb token) objectPrototype); discriminate.
Qed.

Lemma handleRequest_references (en : Entropy) (req : request) (db : DB) :
  tokensReferToUsers db /\ notesReferToUsers db ->
  tokensReferToUsers (db_after (handleRequest pf en req db))
  /\ notesReferToUsers (db_after (handleRequest pf en req db)).
Proof.
  intros [Ht Hn].
  destruct (handleRequest_cases en req db)
    as [(-> & _) | [(name & h & _ & _ & ->) | [(u & Hu & ->) | (n & Ha & ->)]]];
    unfold tokensReferToUsers, notesReferToUsers;
    cbn [db_after db_users db_notes db_tokens]; [auto | | |].
  - split.
    + intros token id Hl. destruct (Ht token id Hl) as (v & Hin & Hid).
      exists v. split; [apply in_or_app; auto | exact Hid].
    + intros m id Hin Hm. destruct (Hn m id Hin Hm) as (v & Hv & Hid).
      exists v. split; [apply in_or_app; auto | exact Hid].
  - split; [|exact Hn].
    intros token id Hl.
    destruct (decide (hex (randomBytes16 en) = token)) as [<- | Hne].
    + rewrite lookup_insert_eq in Hl. injection Hl as <-. eauto.
    + rewrite lookup_insert_ne in Hl by exact Hne. eauto.
  - split; [exact Ht|].
    intros m id Hin Hm. apply in_app_or in Hin as [Hin | [<- | []]]; [eauto|].
    rewrite Hm in Ha. apply requireAuth_user in Ha as (token & Hl). eauto.
Qed.

(** X17.  References hold: in every database the server reaches from the
    empty one, and from any database in which it already holds, every stored
    token carries the id of a stored user, and every note that carries a user
    id carries the id of a stored user. *)
Theorem references_stay_valid (requests : list (Entropy * request)) (db : DB) :
  (tokensReferToUsers (serveAll pf requests emptyDB)
   /\ notesReferToUsers (serveAll pf requests emptyDB))
  /\ (tokensReferToUsers db /\ notesReferToUsers db ->
      tokensReferToUsers (serveAll pf requests db)
      /\ notesReferToUsers (serveAll pf requests db)).
Proof.
  assert (forall db0, tokensReferToUsers db0 /\ notesReferToUsers db0 ->
                      tokensReferToUsers (serveAll pf requests db0)
                      /\ notesReferToUsers (serveAll pf requests db0)) as H.
  { induction requests as [|[en req] rest IH]; intros db0 Hd; [exact Hd|].
    cbn [serveAll]. apply IH. now apply handleRequest_references. }
  split; [apply H | apply H].
  split.
  - intros token id Hl. cbn in Hl. rewrite lookup_empty in Hl. discriminate.
  - intros n id [].
Qed.

(** X18.  Tokens do not expire and are never revoked: a stored token keeps
    its user over any sequence of requests in which no login draws the same
    token again, and a notes request that presents it as bearer is still
    accepted for that user afterwards. *)
Theorem tokens_never_expire (requests : list (Entropy * request)) (db : DB)
  (token id : string) (m u : string) (b : option json) :
  db_tokens db !! token = Some id ->
  id <> "" ->
  Forall (fun r => hex (randomBytes16 (fst r)) <> token) requests ->
  db_tokens (serveAll pf requests db) !! token = Some id
  /\ requireAuth (serveAll pf requests db)
       (mkRequest m u (Some ("Bearer " +:+ token)) b) = Some (UserId id).
Proof.
  intros Hown Hid Hfresh.
  assert (db_tokens (serveAll pf requests db) !! token = Some id) as Hkept.
  { revert db Hown. induction Hfresh as [|[en req] rest Hne _ IH]; intros db Hown;
      [exact Hown|].
    cbn [serveAll]. apply IH. rewrite handleRequest_tokens; [exact Hown|].
    cbn [fst] in Hne. congruence. }
  split; [exact Hkept|]. now apply requireAuth_token.
Qed.

End Requests.

Section Tokens.
Import Js Server Fixtures.

Lemma hex_byte_facts (b : byte) :
  isHexChar (hexDigit (byte.unsigned b / 16)) = true
  /\ isHexChar (hexDigit (byte.unsigned b mod 16)) = true
  /\ byte.of_Z (16 * unhexDigit (hexDigit (byte.unsigned b / 16))
                + unhexDigit (hexDigit (byte.unsigned b mod 16))) = b.
Proof. destruct b; repeat split; reflexivity. Qed.

Lemma isHex_hex (bytes : list byte) : isHex (hex bytes) = true.
Proof.
  induction bytes as [|b bytes IH]; [reflexivity|].
  destruct (hex_byte_facts b) as (H1 & H2 & _).
  cbn [hex isHex]. now rewrite H1, H2, IH.
Qed.

(** A string of hex characters does not contain the scheme word. *)
Lemma remove_first_hex (t : string) : isHex t = true -> remove_first "Bearer " t = t.
Proof.
  induction t as [|c t IH]; [reflexivity|].
  cbn [isHex]. intros H. apply andb_true_iff in H as [Hc Ht].
  cbn [remove_first String.prefix].
  destruct (ascii_dec "B" c) as [<- | _]; [discriminate Hc|].
  now rewrite IH.
Qed.

Lemma isHex_not_inherited (t : string) :
  isHex t = true -> existsb (String.eqb t) objectPrototype = false.
Proof.
  intros Hhex. unfold objectPrototype. cbn [existsb].
  repeat match goal with
         | |- context [String.eqb t ?name] =>
             let E := fresh "E" in
             destruct (String.eqb t name) eqn:E;
             [apply String.eqb_eq in E; subst t; discriminate Hhex|]
         end.
  reflexivity.
Qed.

(** X19.  The token of a login is the random bytes written as lowercase hex:
    two characters per byte, from which the bytes can be read back, so two
    different draws never give the same token; and such a token is never one
    of the names a plain object inherits, so looking it up in [db.tokens]
    finds a stored user id or nothing. *)
Theorem token_keeps_the_random_bytes (bytes : list byte) (db : DB) :
  unhex (hex bytes) = bytes
  /\ String.length (hex bytes) = (2 * length bytes)%nat
  /\ isHex (hex bytes) = true
  /\ tokenLookup db (hex bytes) = option_map UserId (db_tokens db !! hex bytes).
Proof.
  split; [|split; [|split]].
  - induction bytes as [|b bytes IH]; [reflexivity|].
    destruct (hex_byte_facts b) as (_ & _ & Hb).
    cbn [hex unhex]. now rewrite Hb, IH.
  - induction bytes as [|b bytes IH]; [reflexivity|].
    cbn [hex String.length length]. rewrite IH. lia.
  - apply isHex_hex.
  - unfold tokenLookup. destruct (db_tokens db !! hex bytes); [reflexivity|].
    now rewrite isHex_not_inherited by apply isHex_hex.
Qed.

(** X20.  The scheme word is optional: [requireAuth] removes the first
    "Bearer " it finds and does not ask for one, so a header that consists of
    the bare token is accepted exactly like [Bearer <token>]. *)
Theorem scheme_word_is_optional (bytes : list byte) (db : DB) (m u : string)
  (b : option json) :
  requireAuth db (mkRequest m u (Some (hex bytes)) b)
  = requireAuth db (mkRequest m u (Some ("Bearer " +:+ hex bytes)) b).
Proof.
  unfold requireAuth.
  change (default "" (authorization (mkRequest m u (Some (hex bytes)) b)))
    with (hex bytes).
  change (default "" (authorization
                        (mkRequest m u (Some ("Bearer " +:+ hex bytes)) b)))
    with ("Bearer " +:+ hex bytes).
  now rewrite bearer_token, remove_first_hex by apply isHex_hex.
Qed.

End Tokens.

Section Refusals.
Import Js Server Fixtures.
Context (pf : Platform).

(** X21.  A login is refused with 401 and the same message whether the user
    name is unknown or the password hashes to something else than what is
    stored; no token is stored and the database is neither changed nor
    saved. *)
Theorem login_is_refused (en : Entropy) (db : DB) (auth : option string)
  (fields : list (string * json)) :
  (findUser db (own fields "username") = None
   \/ exists user p,
        findUser db (own fields "username") = Some user
        /\ own fields "password" = Some (JStr p)
        /\ sha256hex pf p <> user_passwordHash user) ->
  handleRequest pf en (mkRequest "POST" "/login" auth (Some (JObj fields))) db
  = mkOutcome db false 401 (Error "invalid credentials").
Proof.
  intros H. cbn [handleRequest method url String.eqb Ascii.eqb Bool.eqb andb].
  unfold login. cbn [body prop get].
  destruct H as [-> | (user & p & -> & -> & Hne)]; [reflexivity|].
  cbn [hashPassword].
  destruct (String.eqb (user_passwordHash user) (sha256hex pf p)) eqn:E;
    [|reflexivity].
  apply String.eqb_eq in E. congruence.
Qed.

Lemma hashPassword_throws v : notAString v -> hashPassword pf v = None.
Proof. destruct v as [[]|]; cbn; tauto. Qed.

(** X22.  A body that is not JSON, or is the JSON [null], is answered 500 by
    the register and login routes, and by the note route after an accepted
    token; so is a registration of a new name whose password is present but
    not a string, and a login for a stored name whose password is missing or
    not a string (while the same login for an unknown name is answered 401).
    None of them changes or saves the database. *)
Theorem bad_body_is_a_server_error (en : Entropy) (db : DB) (auth : option string) :
  let failed := mkOutcome db false 500 (Error "server error") in
  (forall b route,
      b = None \/ b = Some JNull ->
      route = "/register" \/ route = "/login" ->
      handleRequest pf en (mkRequest "POST" route auth b) db = failed)
  /\ (forall b userId,
         b = None \/ b = Some JNull ->
         requireAuth db (mkRequest "POST" "/notes" auth b) = Some userId ->
         handleRequest pf en (mkRequest "POST" "/notes" auth b) db = failed)
  /\ (forall fields,
         truthy (own fields "username") = true ->
         truthy (own fields "password") = true ->
         notAString (own fields "password") ->
         findUser db (own fields "username") = None ->
         handleRequest pf en
           (mkRequest "POST" "/register" auth (Some (JObj fields))) db = failed)
  /\ (forall fields user,
         notAString (own fields "password") ->
         findUser db (own fields "username") = Some user ->
         handleRequest pf en
           (mkRequest "POST" "/login" auth (Some (JObj fields))) db = failed).
Proof.
  cbn zeta. split; [|split; [|split]].
  - intros b route [-> | ->] [-> | ->]; reflexivity.
  - intros b userId Hb Hauth.
    cbn [handleRequest method url String.eqb Ascii.eqb Bool.eqb andb].
    unfold createNote. rewrite Hauth. destruct Hb as [-> | ->]; reflexivity.
  - intros fields Hu Hp Hpw Hnew.
    cbn [handleRequest method url String.eqb Ascii.eqb Bool.eqb andb].
    unfold register. cbn [body prop get]. rewrite Hu, Hp. cbn [negb orb].
    destruct (own fields "username") as [name|] eqn:E; [|discriminate Hu].
    rewrite Hnew, (hashPassword_throws _ Hpw). reflexivity.
  - intros fields user Hpw Hfound.
    cbn [handleRequest method url String.eqb Ascii.eqb Bool.eqb andb].
    unfold login. cbn [body prop get].
    rewrite Hfound, (hashPassword_throws _ Hpw). reflexivity.
Qed.

Lemma sameUser_refl r : sameUser r r = true.
Proof. destruct r; cbn; apply String.eqb_refl. Qed.

(** X23.  A created note is listed: when [POST /notes] is answered 201, a
    [GET /notes] with the same Authorization header is answered 200 before
    and after, and the listing after is the listing before with the new note
    added at the end. *)
Theorem created_note_is_listed (en en' : Entropy) (db : DB) (auth : option string)
  (b b' : option json) :
  let post := handleRequest pf en (mkRequest "POST" "/notes" auth b) db in
  let before := handleRequest pf en' (mkRequest "GET" "/notes" auth b') db in
  let after := handleRequest pf en' (mkRequest "GET" "/notes" auth b')
                 (db_after post) in
  status post = 201 ->
  exists n ns,
    sent post = Note n
    /\ status before = 200 /\ sent before = Notes ns
    /\ status after = 200 /\ sent after = Notes (ns ++ [n]).
Proof.
  cbn zeta.
  cbn [handleRequest method url String.eqb Ascii.eqb Bool.eqb andb].
  unfold createNote, listNotes, unauthorized, serverError, send.
  assert (forall d, db_tokens d = db_tokens db ->
                    requireAuth d (mkRequest "GET" "/notes" auth b')
                    = requireAuth db (mkRequest "POST" "/notes" auth b)) as Hauth.
  { intros d Hd. unfold requireAuth, tokenLookup. cbn [authorization].
    now rewrite Hd. }
  rewrite (Hauth db eq_refl).
  destruct (requireAuth db (mkRequest "POST" "/notes" auth b)) as [userId|] eqn:A;
    [|discriminate].
  cbn [body]. destruct b as [data|]; [|discriminate].
  destruct (prop data "transcript") as [transcript|]; [|discriminate].
  destruct (negb (truthy transcript)); [discriminate|].
  intros _. cbn [db_after db_notes status sent].
  rewrite Hauth by reflexivity.
  eexists. eexists. split; [reflexivity|]. split; [reflexivity|].
  split; [reflexivity|]. split; [reflexivity|].
  rewrite List.filter_app. cbn [List.filter note_userId].
  now rewrite sameUser_refl.
Qed.

End Refusals.

Section RefusalExamples.
Import Js Server Fixtures.

(** A login for a name nobody registered. *)
Lemma login_is_refused_witness :
  handleRequest platform entropy
    (mkRequest "POST" "/login" None (Some (credentials "a" "p"))) emptyDB
  = mkOutcome emptyDB false 401 (Error "invalid credentials").
Proof.
  apply (login_is_refused platform entropy emptyDB None
           [("username", JStr "a"); ("password", JStr "p")]).
  left. reflexivity.
Defined.

(** A token stored for a user, then a registration and a refused listing. *)
Lemma tokens_never_expire_witness :
  db_tokens
    (serveAll platform
       [(entropy, mkRequest "POST" "/register" None (Some (credentials "b" "q")));
        (entropy, mkRequest "GET" "/notes" None None)]
       (mkDB [mkUser "u1" (JStr "a") "sha256:p"] [] {["abc" := "u1"]}))
    !! "abc" = Some "u1".
Proof.
  apply (tokens_never_expire platform
           [(entropy, mkRequest "POST" "/register" None (Some (credentials "b" "q")));
            (entropy, mkRequest "GET" "/notes" None None)]
           (mkDB [mkUser "u1" (JStr "a") "sha256:p"] [] {["abc" := "u1"]})
           "abc" "u1" "GET" "/notes" None).
  - reflexivity.
  - discriminate.
  - repeat constructor; discriminate.
Defined.

(** A note created with a stored token. *)
Lemma created_note_is_listed_witness :
  exists n ns,
    sent (handleRequest platform entropy
            (mkRequest "POST" "/notes" (Some "Bearer abc")
               (Some (JObj [("transcript", JStr "x")])))
            (mkDB [mkUser "u1" (JStr "a") "sha256:p"] [] {["abc" := "u1"]}))
    = Note n
    /\ sent (handleRequest platform entropy
               (mkRequest "GET" "/notes" (Some "Bearer abc") None)
               (mkDB [mkUser "u1" (JStr "a") "sha256:p"] [] {["abc" := "u1"]}))
       = Notes ns
    /\ sent (handleRequest platform entropy
               (mkRequest "GET" "/notes" (Some "Bearer abc") None)
               (db_after
                  (handleRequest platform entropy
                     (mkRequest "POST" "/notes" (Some "Bearer abc")
                        (Some (JObj [("transcript", JStr "x")])))
                     (mkDB [mkUser "u1" (JStr "a") "sha256:p"] []
                        {["abc" := "u1"]}))))
       = Notes (ns ++ [n]).
Proof.
  destruct (created_note_is_listed platform entropy entropy
              (mkDB [mkUser "u1" (JStr "a") "sha256:p"] [] {["abc" := "u1"]})
              (Some "Bearer abc") (Some (JObj [("transcript", JStr "x")])) None)
    as (n & ns & H1 & _ & H2 & _ & H3); [reflexivity|].
  exists n, ns. exact (conj H1 (conj H2 H3)).
Defined.

End RefusalExamples.
